(** * calendar_manager: the calendar abstraction and its reconciliation engine

    A shallow embedding of [calendar_manager/calendar.py] (Event, EventFilter,
    SyncConfig, the Calendar contract with [has_event] and [sync_from]) and of
    [calendar_manager/static.py] (StaticCalendar), followed by the properties
    of the specification that concern them. *)

From Stdlib Require Import ZArith List String Ascii Bool Lia Permutation.
From stdpp Require Import base option list strings gmap infinite.

Open Scope Z_scope.

(** ** Python values that the code compares *)

(** [datetime.timedelta], normalised by Python to days, seconds and
    microseconds. *)
Record timedelta := mk_timedelta {
  td_days : Z;
  td_seconds : Z;
  td_microseconds : Z
}.

(** [datetime.time]; only the fields the program reads. *)
Record time := mk_time {
  t_hour : Z;
  t_minute : Z;
  t_second : Z;
  t_microsecond : Z
}.

(** An aware [datetime.datetime].  The [tzinfo] is a fixed-offset zone, given
    by its [utcoffset] in seconds east of UTC.  The year range
    [MINYEAR..MAXYEAR] and the [OverflowError] it causes are not modelled. *)
Record datetime := mk_datetime {
  year : Z;
  month : Z;
  day : Z;
  hour : Z;
  minute : Z;
  second : Z;
  microsecond : Z;
  tzinfo : Z
}.

Module Calendrical.

(** The helpers of CPython's [datetime] module that turn a civil date into a
    proleptic Gregorian ordinal and back. *)

Definition is_leap (y : Z) : bool :=
  (y mod 4 =? 0) && (negb (y mod 100 =? 0) || (y mod 400 =? 0)).

Definition days_before_year (y : Z) : Z :=
  let p := y - 1 in p * 365 + p / 4 - p / 100 + p / 400.

Definition DAYS_IN_MONTH : list Z :=
  [31; 28; 31; 30; 31; 30; 31; 31; 30; 31; 30; 31].

Definition days_in_month_tbl (m : Z) : Z :=
  nth (Z.to_nat (m - 1)) DAYS_IN_MONTH 0.

Definition days_before_month_tbl (m : Z) : Z :=
  fold_right Z.add 0 (firstn (Z.to_nat (m - 1)) DAYS_IN_MONTH).

Definition days_before_month (y m : Z) : Z :=
  days_before_month_tbl m + (if (2 <? m) && is_leap y then 1 else 0).

Definition ymd2ord (y m d : Z) : Z :=
  days_before_year y + days_before_month y m + d.

Definition DI400Y : Z := 146097.
Definition DI100Y : Z := 36524.
Definition DI4Y : Z := 1461.

Definition ord2ymd (ordinal : Z) : Z * Z * Z :=
  let n := ordinal - 1 in
  let n400 := n / DI400Y in
  let n := n mod DI400Y in
  let y := n400 * 400 + 1 in
  let n100 := n / DI100Y in
  let n := n mod DI100Y in
  let n4 := n / DI4Y in
  let n := n mod DI4Y in
  let n1 := n / 365 in
  let n := n mod 365 in
  let y := y + n100 * 100 + n4 * 4 + n1 in
  if (n1 =? 4) || (n100 =? 4) then (y - 1, 12, 31)
  else
    let leapyear := (n1 =? 3) && (negb (n4 =? 24) || (n100 =? 3)) in
    let m := Z.shiftr (n + 50) 5 in
    let preceding :=
      days_before_month_tbl m + (if (2 <? m) && leapyear then 1 else 0) in
    let '(m, preceding) :=
      if n <? preceding
      then (m - 1,
            preceding - (days_in_month_tbl (m - 1)
                         + (if (m - 1 =? 2) && leapyear then 1 else 0)))
      else (m, preceding) in
    (y, m, n - preceding + 1).

End Calendrical.

Definition US_PER_SECOND : Z := 1000000.
Definition SECONDS_PER_DAY : Z := 86400.

Definition timedelta_total_us (d : timedelta) : Z :=
  (td_days d * SECONDS_PER_DAY + td_seconds d) * US_PER_SECOND
  + td_microseconds d.

(** [bool(timedelta)]: a zero duration is falsy. *)
Definition timedelta_truthy (d : timedelta) : bool :=
  negb ((td_days d =? 0) && (td_seconds d =? 0) && (td_microseconds d =? 0)).

Definition toordinal (dt : datetime) : Z :=
  Calendrical.ymd2ord (year dt) (month dt) (day dt).

(** Microseconds of the wall-clock reading since ordinal 0, midnight. *)
Definition local_us (dt : datetime) : Z :=
  ((toordinal dt * SECONDS_PER_DAY
    + hour dt * 3600 + minute dt * 60 + second dt) * US_PER_SECOND)
  + microsecond dt.

(** The instant on the UTC time line: aware datetimes are compared after
    their [utcoffset] is subtracted. *)
Definition instant (dt : datetime) : Z :=
  local_us dt - tzinfo dt * US_PER_SECOND.

(** [a <= b] and [a == b] on aware datetimes.  (Python compares the
    wall-clock fields when both have the same [tzinfo]; for a fixed-offset
    zone that is the comparison of the instants.) *)
Definition datetime_le (a b : datetime) : bool := instant a <=? instant b.
Definition datetime_eq (a b : datetime) : bool := instant a =? instant b.

(** [dt.replace(hour=h, minute=m)]. *)
Definition replace_hour_minute (dt : datetime) (h m : Z) : datetime :=
  mk_datetime (year dt) (month dt) (day dt) h m
              (second dt) (microsecond dt) (tzinfo dt).

(** [dt + delta]: through the ordinal, as [datetime.__add__] does. *)
Definition datetime_add (dt : datetime) (delta : timedelta) : datetime :=
  let total := local_us dt + timedelta_total_us delta in
  let days := total / (SECONDS_PER_DAY * US_PER_SECOND) in
  let rest := total mod (SECONDS_PER_DAY * US_PER_SECOND) in
  let secs := rest / US_PER_SECOND in
  let us := rest mod US_PER_SECOND in
  let '(y, m, d) := Calendrical.ord2ymd days in
  mk_datetime y m d (secs / 3600) ((secs mod 3600) / 60) (secs mod 60) us
              (tzinfo dt).

(** [Weekday = IntEnum('Weekdays', 'sunday monday ... saturday', start=0)]. *)
Inductive Weekday :=
  sunday | monday | tuesday | wednesday | thursday | friday | saturday.

Definition Weekday_value (w : Weekday) : Z :=
  match w with
  | sunday => 0 | monday => 1 | tuesday => 2 | wednesday => 3
  | thursday => 4 | friday => 5 | saturday => 6
  end.

(** The two kinds of object that meet in the weekday comparison of
    [EventFilter.__call__]: an integer (an [IntEnum] member compares as its
    value) and a bound method, here [datetime.weekday] taken from a datetime
    without being called. *)
Inductive pyobj :=
  | PyInt (n : Z)
  | PyBoundMethod (name : string) (self : datetime).

(** [a == b].  An [int] and a method are never equal: both [__eq__] return
    [NotImplemented] and Python falls back to identity. *)
Definition py_eq (a b : pyobj) : bool :=
  match a, b with
  | PyInt x, PyInt y => x =? y
  | PyBoundMethod n s, PyBoundMethod n' s' =>
      String.eqb n n' && datetime_eq s s'
  | _, _ => false
  end.

(** [datetime.weekday()], had it been called: Monday is 0. *)
Definition datetime_weekday (dt : datetime) : Z := (toordinal dt + 6) mod 7.

(** The day of the week of a datetime as a member of [Weekday]. *)
Definition Weekday_of_datetime (dt : datetime) : Weekday :=
  match toordinal dt mod 7 with
  | 0 => sunday | 1 => monday | 2 => tuesday | 3 => wednesday
  | 4 => thursday | 5 => friday | _ => saturday
  end.

(** Truthiness, as [not x] and [if x] see it: a [datetime] and (since Python
    3.5) a [time] are always true, a string is true unless empty, an
    [IntEnum] member is true unless its value is 0. *)
Definition datetime_truthy (_ : datetime) : bool := true.
Definition time_truthy (_ : time) : bool := true.
Definition str_truthy (s : string) : bool := negb (String.eqb s EmptyString).
Definition Weekday_truthy (w : Weekday) : bool := negb (Weekday_value w =? 0).

(** [x if x else y] for an attribute that defaults to [None]. *)
Definition if_truthy {A} (truthy : A → bool) (x : option A) (y : A) : A :=
  match x with
  | Some v => if truthy v then v else y
  | None => y
  end.

(** [not x or k(x)] for an attribute that defaults to [None]. *)
Definition not_or {A} (truthy : A → bool) (x : option A) (k : A → bool) : bool :=
  match x with
  | Some v => negb (truthy v) || k v
  | None => true
  end.

(** ** The keyword arguments built by [sync_from]

    [details = dict(event); details.pop("id")]: the six fields of an event
    other than its identifier. *)

Module Details.

Record t := mk {
  title : string;
  start : datetime;
  end_ : datetime;
  all_day : bool;
  description : string;
  metadata : gmap string (option string)
}.

Definition set_title (v : string) (d : t) : t :=
  mk v (start d) (end_ d) (all_day d) (description d) (metadata d).

Definition set_start (v : datetime) (d : t) : t :=
  mk (title d) v (end_ d) (all_day d) (description d) (metadata d).

Definition set_end (v : datetime) (d : t) : t :=
  mk (title d) (start d) v (all_day d) (description d) (metadata d).

Definition set_metadata (v : gmap string (option string)) (d : t) : t :=
  mk (title d) (start d) (end_ d) (all_day d) (description d) v.

End Details.

(** ** Event *)

Module Event.

Record t := mk {
  id : option string;
  title : string;
  start : datetime;
  end_ : datetime;
  all_day : bool;
  description : string;
  metadata : gmap string (option string)
}.

(** [self.metadata.get(key)]: [None] for a missing key. *)
Definition metadata_get (self : t) (key : string) : option string :=
  default None (metadata self !! key).

Definition matches (self other : t) : bool :=
  String.eqb (title self) (title other)
  && datetime_eq (start self) (start other)
  && datetime_eq (end_ self) (end_ other).

(** [dict(self)] without its ["id"] entry. *)
Definition to_details (self : t) : Details.t :=
  Details.mk (title self) (start self) (end_ self) (all_day self)
             (description self) (metadata self).

(** [Event(id=id, **details)]. *)
Definition of_details (id : option string) (d : Details.t) : t :=
  mk id (Details.title d) (Details.start d) (Details.end_ d)
     (Details.all_day d) (Details.description d) (Details.metadata d).

(** [self.update] applied to the keyword arguments [details]: every field
    named there is set, the identifier is not among them. *)
Definition update (self : t) (d : Details.t) : t :=
  of_details (id self) d.

End Event.

(** ** EventFilter *)

Module EventFilter.

Record t := mk {
  src_calendar : option string;
  start : option datetime;
  end_ : option datetime;
  weekday : option Weekday
}.

(** [EventFilter()]. *)
Definition default : t := mk None None None None.

Definition call (self : t) (event : Event.t) : bool :=
  forallb (λ b : bool, b) [
    not_or datetime_truthy (start self)
      (λ s, datetime_le s (Event.start event));
    not_or datetime_truthy (end_ self)
      (λ e, datetime_le (Event.end_ event) e);
    not_or Weekday_truthy (weekday self)
      (λ w, py_eq (PyInt (Weekday_value w))
                  (PyBoundMethod "weekday" (Event.start event)));
    not_or str_truthy (src_calendar self)
      (λ c, bool_decide (Event.metadata_get event "src_calendar" = Some c))
  ].

End EventFilter.


(** ** SyncConfig *)

Module SyncConfig.

Record t := mk {
  src_calendar : string;
  title : option string;
  sync_start : option datetime;
  start_time : option time;
  start_offset : option timedelta;
  sync_end : option datetime;
  end_time : option time;
  end_offset : option timedelta
}.

End SyncConfig.

(** ** Python dictionaries whose iteration order is observed

    Insertion-ordered association lists: a key that is set again keeps its
    place, a new key goes to the end. *)

Section pydict.
Context {K V : Type} `{EqDecision K}.

Fixpoint dict_get (k : K) (d : list (K * V)) : option V :=
  match d with
  | [] => None
  | (k', v) :: d' => if decide (k = k') then Some v else dict_get k d'
  end.

Fixpoint dict_set (k : K) (v : V) (d : list (K * V)) : list (K * V) :=
  match d with
  | [] => [(k, v)]
  | (k', v') :: d' =>
      if decide (k = k') then (k', v) :: d' else (k', v') :: dict_set k v d'
  end.

Fixpoint dict_remove (k : K) (d : list (K * V)) : list (K * V) :=
  match d with
  | [] => []
  | (k', v') :: d' =>
      if decide (k = k') then d' else (k', v') :: dict_remove k d'
  end.

Definition dict_keys (d : list (K * V)) : list K := map fst d.
Definition dict_values (d : list (K * V)) : list V := map snd d.

End pydict.

(** ** Exceptions and the effect of a call on a store *)

Inductive exn :=
  | KeyError (key : option string)
  | TypeError (msg : string)
  | NotFound (id : option string)
  | Unsupported (msg : string).

(** A call runs on a store state, leaves a store state behind (also when it
    raises: nothing is rolled back) and either raises or returns. *)
Definition M (S A : Type) : Type := S → S * (exn + A).

Definition ret {S A} (x : A) : M S A := λ s, (s, inr x).

Definition raise {S A} (e : exn) : M S A := λ s, (s, inl e).

Definition bind {S A B} (m : M S A) (f : A → M S B) : M S B :=
  λ s, match m s with
       | (s', inr x) => f x s'
       | (s', inl e) => (s', inl e)
       end.

Declare Scope py_scope.
Delimit Scope py_scope with py.
Notation "x <- m ;; k" := (bind m (λ x, k))
  (at level 100, m at next level, right associativity) : py_scope.
Notation "m ;;; k" := (bind m (λ _, k))
  (at level 100, right associativity) : py_scope.
Open Scope py_scope.

(** [for x in xs: body], where the body rebinds a local variable [acc]. *)
Fixpoint for_fold {S A B} (body : B → A → M S B) (xs : list A) (acc : B)
  : M S B :=
  match xs with
  | [] => ret acc
  | x :: xs' => acc' <- body acc x ;; for_fold body xs' acc'
  end.

(** [for x in xs: body]. *)
Fixpoint for_each {S A} (body : A → M S unit) (xs : list A) : M S unit :=
  match xs with
  | [] => ret tt
  | x :: xs' => body x ;;; for_each body xs'
  end.

(** ** The Calendar contract *)

Class Calendar (S : Type) := {
  events : option EventFilter.t → M S (list Event.t);
  add_event : Event.t → M S unit;
  get_event : option string → M S Event.t;
  create_event : option string → Details.t → M S Event.t;
  update_event : Event.t → M S unit;
  delete_event : option string → M S unit
}.

Section Calendar_defaults.
Context {S : Type} `{Calendar S}.

(** [datetime(dt.year, dt.month, dt.day, tzinfo=dt.tzinfo)]. *)
Definition day_start (dt : datetime) : datetime :=
  mk_datetime (year dt) (month dt) (day dt) 0 0 0 0 (tzinfo dt).

Definition has_event (search : Event.t) : M S bool :=
  let start := day_start (Event.start search) in
  let end_ := replace_hour_minute start 23 59 in
  evs <- events (Some (EventFilter.mk None (Some start) (Some end_) None)) ;;
  ret (existsb (λ event, Event.matches event search) evs).

(** The filter of the first loop of [sync_from].  [now_start] and [now_end]
    are the two readings of [datetime.utcnow().astimezone()]. *)
Definition sync_filter (config : SyncConfig.t) (now_start now_end : datetime)
  : EventFilter.t :=
  EventFilter.mk
    (Some (SyncConfig.src_calendar config))
    (Some (if_truthy datetime_truthy (SyncConfig.sync_start config) now_start))
    (Some (if_truthy datetime_truthy (SyncConfig.sync_end config)
                     (datetime_add now_end (mk_timedelta 30 0 0))))
    None.

(** The body of the first loop: [existing_ids] and [duplicates]. *)
Definition index_event
  (acc : list (option string * option string) * list (option string))
  (event : Event.t)
  : list (option string * option string) * list (option string) :=
  let '(existing_ids, duplicates) := acc in
  let src_id := Event.metadata_get event "src_id" in
  match dict_get src_id existing_ids with
  | Some _ => (existing_ids, duplicates ++ [Event.id event])
  | None => (dict_set src_id (Event.id event) existing_ids, duplicates)
  end.

Definition index_events (evs : list Event.t)
  : list (option string * option string) * list (option string) :=
  fold_left index_event evs ([], []).

(** The keyword arguments computed for one source event. *)
Definition patch_start (config : SyncConfig.t) (event : Event.t) : datetime :=
  let start := Event.start event in
  let start :=
    match SyncConfig.start_time config with
    | Some t =>
        if time_truthy t
        then replace_hour_minute (Event.start event) (t_hour t) (t_minute t)
        else start
    | None => start
    end in
  match SyncConfig.start_offset config with
  | Some o => if timedelta_truthy o then datetime_add start o else start
  | None => start
  end.

Definition patch_end (config : SyncConfig.t) (event : Event.t) : datetime :=
  let end_ := Event.end_ event in
  let end_ :=
    match SyncConfig.end_time config with
    | Some t =>
        if time_truthy t
        then replace_hour_minute (Event.end_ event) (t_hour t) (t_minute t)
        else end_
    | None => end_
    end in
  match SyncConfig.end_offset config with
  | Some o => if timedelta_truthy o then datetime_add end_ o else end_
  | None => end_
  end.

Definition sync_metadata (config : SyncConfig.t) (event : Event.t)
  : gmap string (option string) :=
  <["src_calendar" := Some (SyncConfig.src_calendar config)]>
    (<["src_id" := Event.id event]> ∅).

Definition sync_details (config : SyncConfig.t) (event : Event.t) : Details.t :=
  let details := Event.to_details event in
  let details :=
    match SyncConfig.title config with
    | Some t => if str_truthy t then Details.set_title t details else details
    | None => details
    end in
  let details := Details.set_start (patch_start config event) details in
  let details := Details.set_end (patch_end config event) details in
  Details.set_metadata (sync_metadata config event) details.

(** The body of the second loop. *)
Definition sync_event (config : SyncConfig.t)
  (existing_ids : list (option string * option string)) (event : Event.t)
  : M S (list (option string * option string)) :=
  let details := sync_details config event in
  match dict_get (Event.id event) existing_ids with
  | Some dest_id =>
      let existing_ids := dict_remove (Event.id event) existing_ids in
      found <- get_event dest_id ;;
      (update_event (Event.update found details) ;;;
       ret existing_ids)
  | None =>
      created <- create_event None details ;;
      (present <- has_event created ;;
       ((if present : bool then ret tt else add_event created) ;;;
        ret existing_ids))
  end.

Definition sync_from (src_events : list Event.t) (config : SyncConfig.t)
  (now_start now_end : datetime) : M S unit :=
  evs <- events (Some (sync_filter config now_start now_end)) ;;
  (let '(existing_ids, duplicates) := index_events evs in
   existing_ids <- for_fold (sync_event config) src_events existing_ids ;;
   (for_each delete_event (dict_values existing_ids) ;;;
    for_each delete_event duplicates)).

End Calendar_defaults.

(** ** StaticCalendar ([static.py]) *)

Module StaticCalendar.

Record t := mk {
  _id : string;
  _events : list (option string * Event.t)
}.

(** [self._events = {event.id: event for event in events}]. *)
Definition init (id : string) (events : list Event.t) : t :=
  mk id (fold_left (λ d event, dict_set (Event.id event) event d) events []).

(** [raise NotImplemented("StaticCalendars cannot be modified")].
    [NotImplemented] is the built-in constant, not the exception class
    [NotImplementedError]: evaluating the call raises [TypeError] and no
    exception carrying the message is ever built. *)
Definition raise_NotImplemented {A} (msg : string) : M t A :=
  raise (TypeError "'NotImplementedType' object is not callable").

Definition events_ (event_filter : option EventFilter.t) : M t (list Event.t) :=
  λ self,
    let event_filter := default EventFilter.default event_filter in
    (self, inr (List.filter (EventFilter.call event_filter)
                            (dict_values (_events self)))).

Definition add_event_ (event : Event.t) : M t unit :=
  raise_NotImplemented "StaticCalendars cannot be modified".

(** [self._events[id]]: a missing key raises [KeyError]. *)
Definition get_event_ (id : option string) : M t Event.t :=
  λ self,
    match dict_get id (_events self) with
    | Some event => (self, inr event)
    | None => (self, inl (KeyError id))
    end.

Definition create_event_ (id : option string) (kwargs : Details.t)
  : M t Event.t :=
  raise_NotImplemented "StaticCalendars cannot be modified".

Definition update_event_ (event : Event.t) : M t unit :=
  raise_NotImplemented "StaticCalendars cannot be modified".

Definition delete_event_ (id : option string) : M t unit :=
  raise_NotImplemented "StaticCalendars cannot be modified".

#[global] Instance calendar : Calendar t := {|
  events := events_;
  add_event := add_event_;
  get_event := get_event_;
  create_event := create_event_;
  update_event := update_event_;
  delete_event := delete_event_
|}.

End StaticCalendar.

(** ** A writable store *)

Module MemCalendar.

(** The mutating calls a store has served, oldest first. *)
Inductive call :=
  | AddEvent (event : Event.t)
  | UpdateEvent (event : Event.t)
  | DeleteEvent (id : option string).

(** Modelled from the spec: the writable destination store behind the
    Calendar contract (the remote service that [google.py] talks to is not
    part of the repository).  Records are kept under the identifier the store
    assigned; [calls] is the journal of the mutating calls served. *)
Record t := mk {
  records : gmap string Details.t;
  calls : list call
}.

(** Modelled from the spec: the events of the store, each carrying the
    identifier it is stored under. *)
Definition stored (self : t) : list Event.t :=
  map (λ kd : string * Details.t, Event.of_details (Some kd.1) kd.2)
      (map_to_list (records self)).

(** Modelled from the spec: [events(filter)] yields the events matching
    [filter], an absent filter meaning all events. *)
Definition events_ (event_filter : option EventFilter.t) : M t (list Event.t) :=
  λ self,
    let event_filter := default EventFilter.default event_filter in
    (self, inr (List.filter (EventFilter.call event_filter) (stored self))).

(** Modelled from the spec: [get_event(id)] fails with a not-found error if
    no record with that identifier exists. *)
Definition get_event_ (id : option string) : M t Event.t :=
  λ self,
    match id ≫= (λ k, records self !! k) with
    | Some d => (self, inr (Event.of_details id d))
    | None => (self, inl (NotFound id))
    end.

(** Modelled from the spec: [create_event] constructs a not-yet-persisted
    event from the given fields, without store mutation. *)
Definition create_event_ (id : option string) (kwargs : Details.t)
  : M t Event.t :=
  ret (Event.of_details id kwargs).

(** Modelled from the spec: [add_event] persists the event under an
    identifier assigned by the store, one that no record of the store has. *)
Definition add_event_ (event : Event.t) : M t unit :=
  λ self,
    let k : string := fresh (dom (records self)) in
    (mk (<[k := Event.to_details event]> (records self))
        (calls self
         ++ [AddEvent (Event.of_details (Some k) (Event.to_details event))]),
     inr tt).

(** Modelled from the spec: [update_event] persists the changes of an
    identified event and fails if the identifier does not exist. *)
Definition update_event_ (event : Event.t) : M t unit :=
  λ self,
    match Event.id event with
    | Some k =>
        if decide (is_Some (records self !! k))
        then (mk (<[k := Event.to_details event]> (records self))
                 (calls self ++ [UpdateEvent event]),
              inr tt)
        else (self, inl (NotFound (Some k)))
    | None => (self, inl (NotFound None))
    end.

(** Modelled from the spec: [delete_event] removes the record and fails if
    the identifier does not exist. *)
Definition delete_event_ (id : option string) : M t unit :=
  λ self,
    match id with
    | Some k =>
        if decide (is_Some (records self !! k))
        then (mk (delete k (records self)) (calls self ++ [DeleteEvent id]),
              inr tt)
        else (self, inl (NotFound id))
    | None => (self, inl (NotFound None))
    end.

#[global] Instance calendar : Calendar t := {|
  events := events_;
  add_event := add_event_;
  get_event := get_event_;
  create_event := create_event_;
  update_event := update_event_;
  delete_event := delete_event_
|}.

End MemCalendar.

(** ** Readings of the specification, to compare the code with *)

(** "An event passes iff every specified bound holds": a bound that is unset
    does not constrain, a bound that is set must hold of the event. *)
Definition passes_every_bound (f : EventFilter.t) (event : Event.t) : Prop :=
  (∀ s, EventFilter.start f = Some s → instant s ≤ instant (Event.start event))
  ∧ (∀ e, EventFilter.end_ f = Some e →
          instant (Event.end_ event) ≤ instant e)
  ∧ (∀ w, EventFilter.weekday f = Some w →
          Weekday_of_datetime (Event.start event) = w)
  ∧ (∀ c, EventFilter.src_calendar f = Some c →
          Event.metadata_get event "src_calendar" = Some c).

(** "Replace the time-of-day component of [dt] with [t], preserving the date
    and timezone." *)
Definition replace_time_of_day (dt : datetime) (t : time) : datetime :=
  mk_datetime (year dt) (month dt) (day dt)
              (t_hour t) (t_minute t) (t_second t) (t_microsecond t)
              (tzinfo dt).

(** The last minute of the calendar day of [dt], [23:59:00]. *)
Definition day_end (dt : datetime) : datetime :=
  mk_datetime (year dt) (month dt) (day dt) 23 59 0 0 (tzinfo dt).

(** An event lies on the calendar day of [dt], from [00:00] through [23:59]
    in the timezone of [dt]. *)
Definition on_day_of (dt : datetime) (event : Event.t) : Prop :=
  instant (day_start dt) ≤ instant (Event.start event)
  ∧ instant (Event.end_ event) ≤ instant (day_end dt).

(** Equality on the triple (title, start, end), with [==] of aware datetimes. *)
Definition same_triple (a b : Event.t) : Prop :=
  Event.title a = Event.title b
  ∧ instant (Event.start a) = instant (Event.start b)
  ∧ instant (Event.end_ a) = instant (Event.end_ b).

(** ** Concrete data used in examples *)

Definition utc (y mo d h mi : Z) : datetime := mk_datetime y mo d h mi 0 0 0.

Definition monday_filter : EventFilter.t :=
  EventFilter.mk None None None (Some monday).

Definition monday_event : Event.t :=
  Event.mk (Some "m1") "Planning" (utc 2024 1 1 9 0) (utc 2024 1 1 10 0)
           false EmptyString ∅.

Definition utc_plus1 (y mo d h mi s : Z) : datetime :=
  mk_datetime y mo d h mi s 0 3600.

(** Scenario 4: [start_time = 10:00], [start_offset = +30min]. *)
Definition cfg_time_offset : SyncConfig.t :=
  SyncConfig.mk "work" None None
    (Some (mk_time 10 0 0 0)) (Some (mk_timedelta 0 1800 0))
    None None None.

Definition cfg_time_only : SyncConfig.t :=
  SyncConfig.mk "work" None None (Some (mk_time 10 0 0 0)) None None None None.

Definition review_0800 : Event.t :=
  Event.mk (Some "e1") "Review"
           (utc_plus1 2024 3 1 8 0 0) (utc_plus1 2024 3 1 9 0 0) false EmptyString ∅.

Definition review_080045 : Event.t :=
  Event.mk (Some "e2") "Review"
           (utc_plus1 2024 3 1 8 0 45) (utc_plus1 2024 3 1 9 0 0) false EmptyString ∅.

Definition static_week : StaticCalendar.t :=
  StaticCalendar.init "week" [monday_event; review_0800].

(** The source identifier a destination record was derived from:
    [event.metadata.get("src_id")]. *)
Definition src_id_of (event : Event.t) : option string :=
  Event.metadata_get event "src_id".

(** ** The run of [sync_from] on a writable store, step by step *)

(** What the index must satisfy for the run to go through: its keys are
    distinct, and the identifiers it holds, with the duplicates, are distinct
    identifiers of records of the store. *)
Definition index_ok (s : MemCalendar.t)
  (existing_ids : list (option string * option string))
  (duplicates : list (option string)) : Prop :=
  NoDup (dict_keys existing_ids)
  ∧ NoDup (dict_values existing_ids ++ duplicates)
  ∧ ∀ v, v ∈ dict_values existing_ids ++ duplicates →
         ∃ k, v = Some k ∧ is_Some (MemCalendar.records s !! k).

(** One turn of the second loop of [sync_from]: the matched record is
    updated and its index entry consumed, or the insertion is skipped because
    [has_event] found the event, or a new record is added. *)
Inductive sync_step (config : SyncConfig.t) (s : MemCalendar.t)
  (I : list (option string * option string)) (e : Event.t)
  : MemCalendar.t → list (option string * option string) → Prop :=
  | step_update k :
      dict_get (Event.id e) I = Some (Some k) →
      is_Some (MemCalendar.records s !! k) →
      sync_step config s I e
        (MemCalendar.mk
           (<[k := sync_details config e]> (MemCalendar.records s))
           (MemCalendar.calls s
            ++ [MemCalendar.UpdateEvent
                  (Event.of_details (Some k) (sync_details config e))]))
        (dict_remove (Event.id e) I)
  | step_skip :
      dict_get (Event.id e) I = None →
      has_event (Event.of_details None (sync_details config e)) s
        = (s, inr true) →
      sync_step config s I e s I
  | step_add :
      dict_get (Event.id e) I = None →
      has_event (Event.of_details None (sync_details config e)) s
        = (s, inr false) →
      sync_step config s I e
        (MemCalendar.mk
           (<[fresh (dom (MemCalendar.records s)) := sync_details config e]>
              (MemCalendar.records s))
           (MemCalendar.calls s
            ++ [MemCalendar.AddEvent
                  (Event.of_details
                     (Some (fresh (dom (MemCalendar.records s))))
                     (sync_details config e))]))
        I.

Inductive sync_steps (config : SyncConfig.t)
  : MemCalendar.t → list (option string * option string) → list Event.t →
    MemCalendar.t → list (option string * option string) → Prop :=
  | steps_nil s I : sync_steps config s I [] s I
  | steps_cons s I e s1 I1 src s2 I2 :
      sync_step config s I e s1 I1 →
      sync_steps config s1 I1 src s2 I2 →
      sync_steps config s I (e :: src) s2 I2.

(** The records left after [delete_event] has run on each of [ids]. *)
Definition delete_ids (ids : list (option string))
  (m : gmap string Details.t) : gmap string Details.t :=
  fold_left (λ m id, match id with Some k => delete k m | None => m end)
            ids m.

(** The calls that write a record: [add_event] and [update_event]. *)
Definition is_write (c : MemCalendar.call) : bool :=
  match c with
  | MemCalendar.AddEvent _ | MemCalendar.UpdateEvent _ => true
  | MemCalendar.DeleteEvent _ => false
  end.

Definition is_add (c : MemCalendar.call) : bool :=
  match c with MemCalendar.AddEvent _ => true | _ => false end.

Definition is_delete (c : MemCalendar.call) : bool :=
  match c with MemCalendar.DeleteEvent _ => true | _ => false end.

(** The bounds of the window that [sync_from] reconciles. *)
Definition window_start (config : SyncConfig.t) (now_start : datetime)
  : datetime :=
  if_truthy datetime_truthy (SyncConfig.sync_start config) now_start.

Definition window_end (config : SyncConfig.t) (now_end : datetime)
  : datetime :=
  if_truthy datetime_truthy (SyncConfig.sync_end config)
            (datetime_add now_end (mk_timedelta 30 0 0)).


(** A store that holds an orphan: a record synced from the source event
    ["gone"], which the source no longer has. *)
Definition cfg_work : SyncConfig.t :=
  SyncConfig.mk "work" None (Some (utc 2024 1 1 0 0)) None None
                (Some (utc 2024 1 31 0 0)) None None.

Definition tagged (cal src_id : string) : gmap string (option string) :=
  <["src_calendar" := Some cal]> (<["src_id" := Some src_id]> ∅).



(** Scenario 1 of the specification: an empty destination and one source
    event. *)
Definition standup : Event.t :=
  Event.mk (Some "abc") "Standup" (utc 2024 1 2 9 0) (utc 2024 1 2 9 15)
           false EmptyString ∅.

Definition empty_store : MemCalendar.t := MemCalendar.mk ∅ [].


Definition jan1 : datetime := utc 2024 1 1 0 0.

(** ** Reconciled destinations *)

Definition count_writes (calls : list MemCalendar.call) : nat :=
  length (List.filter is_write calls).

(** An [update_event] call that changes nothing: the event written is the
    record that the store holds under its identifier. *)
Definition noop_update (m : gmap string Details.t) (c : MemCalendar.call)
  : Prop :=
  ∃ ev k, c = MemCalendar.UpdateEvent ev
          ∧ Event.id ev = Some k
          ∧ m !! k = Some (Event.to_details ev).

(** A record passes a filter, whatever identifier it is stored under. *)
Definition passes (f : EventFilter.t) (d : Details.t) : Prop :=
  EventFilter.call f (Event.of_details None d) = true.

Definition details_src_id (d : Details.t) : option string :=
  default None (Details.metadata d !! "src_id").

(** The destination [m] is reconciled with the source events [done_], up to
    the records whose identifiers are in [pending] (they still await their
    source event or their deletion): every record in the scope of the filter
    holds the computed fields of a source event of [done_], every source
    event of [done_] has a record that holds its computed fields, and no two
    records in scope share a [src_id]. *)
Definition reconciled (f : EventFilter.t) (config : SyncConfig.t)
  (done_ : list Event.t) (m : gmap string Details.t)
  (pending : list (option string)) : Prop :=
  (∀ k d, m !! k = Some d → passes f d →
          Some k ∈ pending ∨ ∃ e, e ∈ done_ ∧ d = sync_details config e)
  ∧ (∀ e, e ∈ done_ →
          ∃ k, m !! k = Some (sync_details config e) ∧ Some k ∉ pending)
  ∧ (∀ k k' d d', m !! k = Some d → m !! k' = Some d' →
          Some k ∉ pending → Some k' ∉ pending →
          passes f d → passes f d' →
          details_src_id d = details_src_id d' → k = k').

(** A source event that lies outside the sync window of [cfg_work] and runs
    past midnight. *)
Definition deploy : Event.t :=
  Event.mk (Some "dep") "Deploy" (utc 2024 3 1 23 30) (utc 2024 3 2 0 30)
           false EmptyString ∅.

Definition deploy_run1 : MemCalendar.t :=
  (sync_from [deploy] cfg_work jan1 jan1 empty_store).1.

Definition deploy_run2 : MemCalendar.t :=
  (sync_from [deploy] cfg_work jan1 jan1 deploy_run1).1.

Definition standup_run1 : MemCalendar.t :=
  (sync_from [standup] cfg_work jan1 jan1 empty_store).1.

(** Scenario 5 of the specification: two destination records derived from
    the same source event ["dup1"]. *)
Definition dup_details (title : string) : Details.t :=
  Details.mk title (utc 2024 1 8 10 0) (utc 2024 1 8 11 0) false EmptyString
             (tagged "work" "dup1").

Definition store_with_duplicates : MemCalendar.t :=
  MemCalendar.mk
    (<["d1" := dup_details "Sync"]> (<["d2" := dup_details "Sync (copy)"]> ∅))
    [].

Definition sync_meeting : Event.t :=
  Event.mk (Some "dup1") "Sync" (utc 2024 1 8 10 0) (utc 2024 1 8 11 0)
           false EmptyString ∅.

(** A read-only calendar that holds the late-night event [deploy]. *)
Definition static_deploy : StaticCalendar.t :=
  StaticCalendar.init "ops" [deploy].

(** Two versions of the same event and another one in between. *)
Definition standup_moved : Event.t :=
  Event.mk (Some "abc") "Standup" (utc 2024 1 2 9 30) (utc 2024 1 2 9 45)
           false EmptyString ∅.

Definition static_versions : StaticCalendar.t :=
  StaticCalendar.init "team" [standup; monday_event; standup_moved].




(** ** The Google adapter ([google.py]): bodies and their encoding *)

Module Google.

(** The library functions that [google.py] calls: [datetime.isoformat],
    [datetime.fromisoformat] and [json.loads] ([None] when they raise),
    [strftime("%Y-%m-%d")], [json.dumps], and the timezone of the machine,
    [LOCAL_TIMEZONE].  [fromisoformat] is taken to return aware datetimes;
    of the datetime it returns for a date only the date is used. *)
Class Library := {
  isoformat : datetime → string;
  fromisoformat : string → option datetime;
  strftime_ymd : datetime → string;
  json_dumps : gmap string (option string) → string;
  json_loads : string → option (gmap string (option string));
  LOCAL_TIMEZONE : Z
}.

Inductive error :=
  | KeyError (key : string)
  | ValueError (msg : string)
  | TypeError (msg : string)
  | LibraryError (function : string).

(** The dictionaries under ["start"] and ["end"]. *)
Record date_dict := mk_date_dict {
  dateTime : option string;
  date : option string
}.

(** The keys of a body that the adapter reads or writes. *)
Record body := mk_body {
  b_id : option string;
  b_summary : option string;
  b_start : option date_dict;
  b_end : option date_dict;
  b_description : option string;
  b_status : option string
}.

Definition METADATA_HEADER : string := "## BEGIN METADATA".

Definition NEWLINE : ascii := "010"%char.

(** [s.split("\n")]. *)
Fixpoint split_lines (s : string) : list string :=
  match s with
  | EmptyString => [EmptyString]
  | String c s' =>
      if Ascii.eqb c NEWLINE then EmptyString :: split_lines s'
      else match split_lines s' with
           | l :: ls => String c l :: ls
           | [] => [String c EmptyString]
           end
  end.

(** ["\n".join(lines)]. *)
Fixpoint join_lines (lines : list string) : string :=
  match lines with
  | [] => EmptyString
  | [l] => l
  | l :: ls => l +:+ String NEWLINE (join_lines ls)
  end.

(** [c.isspace()] for a character below U+0100. *)
Definition is_space (c : ascii) : bool :=
  let n := nat_of_ascii c in
  ((9 <=? n) && (n <=? 13))%nat || ((28 <=? n) && (n <=? 32))%nat
  || (n =? 133)%nat || (n =? 160)%nat.

(** [s.rstrip()]. *)
Fixpoint rstrip (s : string) : string :=
  match s with
  | EmptyString => EmptyString
  | String c s' =>
      match rstrip s' with
      | EmptyString => if is_space c then EmptyString
                       else String c EmptyString
      | r => String c r
      end
  end.

(** *** Listings

    A page of a listing, with the two keys that [iterate_results] reads. *)
Record page (A : Type) := mk_page {
  items : option (list A);
  nextPageToken : option string
}.
Arguments mk_page {A} _ _.
Arguments items {A} _.
Arguments nextPageToken {A} _.

(** What a generator over the service does, in order: the requests it
    sends, with their keyword arguments and their page token, and the values
    it yields. *)
Inductive step (K A : Type) :=
  | Request (kwargs : K) (pageToken : option string)
  | Yield (a : A).
Arguments Request {K A} _ _.
Arguments Yield {K A} _.

(** How a run ends: it returns, it raises, or it has sent a request that the
    service has not answered. *)
Inductive outcome (A : Type) :=
  | Returned (a : A)
  | Raised (e : error)
  | Waiting.
Arguments Returned {A} _.
Arguments Raised {A} _.
Arguments Waiting {A}.

Definition yields {K A : Type} (trace : list (step K A)) : list A :=
  omap (λ st, match st with Yield a => Some a | Request _ _ => None end) trace.

Definition requests {K A : Type} (trace : list (step K A))
  : list (K * option string) :=
  omap (λ st, match st with
              | Request kwargs t => Some (kwargs, t)
              | Yield _ => None
              end) trace.

(** The [while] loop of [iterate_results].  The service is given by what its
    successive [execute()] calls return, [None] or a page: [result] is the
    last answer and [answers] are those to come. *)
Fixpoint iterate_results_while {K A : Type} (kwargs : K)
  (result : option (page A)) (answers : list (option (page A)))
  {struct answers} : list (step K A) * outcome unit :=
  match result with
  | None => ([], Returned tt)
  | Some result =>
      match items result with
      | None => ([], Raised (KeyError "items"))
      | Some rs =>
          match nextPageToken result with
          | Some token =>
              match answers with
              | [] => (map Yield rs ++ [Request kwargs (Some token)], Waiting)
              | result' :: answers' =>
                  let '(trace, o) :=
                    iterate_results_while kwargs result' answers' in
                  (map Yield rs ++ Request kwargs (Some token) :: trace, o)
              end
          | None => (map Yield rs, Returned tt)
          end
      end
  end.

Definition iterate_results {K A : Type} (kwargs : K)
  (answers : list (option (page A))) : list (step K A) * outcome unit :=
  match answers with
  | [] => ([Request kwargs None], Waiting)
  | result :: answers' =>
      let '(trace, o) := iterate_results_while kwargs result answers' in
      (Request kwargs None :: trace, o)
  end.

(** [filter(function, generator)]. *)
Definition filter_yields {K A : Type} (function : A → bool)
  (trace : list (step K A)) : list (step K A) :=
  List.filter (λ st, match st with
                     | Yield a => function a
                     | Request _ _ => true
                     end) trace.

Section with_library.
Context `{Library}.

Definition _decode_date (data : date_dict) : error + (datetime * bool) :=
  match dateTime data with
  | Some text =>
      match fromisoformat text with
      | Some dt => inr (dt, false)
      | None => inl (LibraryError "fromisoformat")
      end
  | None =>
      match date data with
      | Some text =>
          match fromisoformat text with
          | Some dt =>
              inr (mk_datetime (year dt) (month dt) (day dt) 0 0 0 0
                               LOCAL_TIMEZONE,
                   true)
          | None => inl (LibraryError "fromisoformat")
          end
      | None => inl (ValueError "Invalid data for date")
      end
  end.

Definition _encode_date (start end_ : datetime) (all_day : bool)
  : date_dict * date_dict :=
  if all_day
  then (mk_date_dict None (Some (strftime_ymd start)),
        mk_date_dict None (Some (strftime_ymd end_)))
  else (mk_date_dict (Some (isoformat start)) None,
        mk_date_dict (Some (isoformat end_)) None).

(** The loop of [from_body] over the lines of the description: the lines
    before the first header line are the description, each followed by a
    newline; what follows the header line is the metadata. *)
Fixpoint read_description (lines : list string) (description : string)
  : error + (string * gmap string (option string)) :=
  match lines with
  | [] => inr (description, ∅)
  | line :: rest =>
      if String.eqb line METADATA_HEADER
      then match json_loads (join_lines rest) with
           | Some metadata => inr (description, metadata)
           | None => inl (LibraryError "json.loads")
           end
      else read_description rest
             (description +:+ line +:+ String NEWLINE EmptyString)
  end.

Definition from_body (b : body) : error + Event.t :=
  match read_description
          (split_lines (default EmptyString (b_description b)))
          EmptyString with
  | inl e => inl e
  | inr (description, metadata) =>
      match b_start b with
      | None => inl (KeyError "start")
      | Some data_start =>
          match _decode_date data_start with
          | inl e => inl e
          | inr (start, all_day) =>
              match b_end b with
              | None => inl (KeyError "end")
              | Some data_end =>
                  match _decode_date data_end with
                  | inl e => inl e
                  | inr (end_, _) =>
                      match b_id b with
                      | None => inl (KeyError "id")
                      | Some id =>
                          match b_summary b with
                          | None => inl (KeyError "summary")
                          | Some summary =>
                              inr (Event.mk (Some id) summary start end_
                                     all_day (rstrip description) metadata)
                          end
                      end
                  end
              end
          end
      end
  end.

(** [if self.metadata]: an empty dictionary is falsy. *)
Definition metadata_truthy (m : gmap string (option string)) : bool :=
  negb (bool_decide (m = ∅)).

Definition encode (self : Event.t) : body :=
  let '(start, end_) :=
    _encode_date (Event.start self) (Event.end_ self) (Event.all_day self) in
  let description := Event.description self in
  let description :=
    if metadata_truthy (Event.metadata self)
    then description +:+ String NEWLINE EmptyString +:+ METADATA_HEADER
         +:+ String NEWLINE EmptyString +:+ json_dumps (Event.metadata self)
    else description in
  mk_body None (Some (Event.title self)) (Some start) (Some end_)
          (Some description) None.

(** The body as the service returns it once it is stored under [id]. *)
Definition stored_as (id : string) (b : body) : body :=
  mk_body (Some id) (b_summary b) (b_start b) (b_end b) (b_description b)
          (b_status b).

Definition MINYEAR : Z := 1.
Definition MAXYEAR : Z := 9999.

(** The keyword arguments of [service.list] that vary; the others are
    [showDeleted=False], [singleEvents=True] and [orderBy="startTime"]. *)
Record list_kwargs := mk_list_kwargs {
  calendarId : string;
  timeMin : string;
  timeMax : string
}.

(** The statuses that [events] lets through. *)
Definition accepted (b : body) : bool :=
  bool_decide (b_status b ∈ [Some "confirmed"; Some "tenative"]).

(** The inner generator of [events], run over what
    [GoogleClient.iterate_results] does. *)
Fixpoint events_iterate_results (trace : list (step list_kwargs body))
  (o : outcome unit) : list (step list_kwargs Event.t) * outcome unit :=
  match trace with
  | [] => ([], o)
  | Request kwargs token :: trace' =>
      let '(out, o') := events_iterate_results trace' o in
      (Request kwargs token :: out, o')
  | Yield event :: trace' =>
      match b_status event with
      | None => ([], Raised (KeyError "status"))
      | Some _ =>
          if accepted event
          then match from_body event with
               | inl e => ([], Raised e)
               | inr ev =>
                   let '(out, o') := events_iterate_results trace' o in
                   (Yield ev :: out, o')
               end
          else events_iterate_results trace' o
      end
  end.

(** [CalendarAdapter.events].  Every datetime of this development has a
    timezone, so the test on [tzinfo] passes. *)
Definition events (self_id : string) (event_filter : option EventFilter.t)
  (answers : list (option (page body)))
  : list (step list_kwargs Event.t) * outcome unit :=
  let event_filter := default EventFilter.default event_filter in
  let start :=
    default (mk_datetime MINYEAR 1 1 0 0 0 0 0)
            (EventFilter.start event_filter) in
  let end_ :=
    default (mk_datetime MAXYEAR 12 31 0 0 0 0 0)
            (EventFilter.end_ event_filter) in
  let '(trace, o) :=
    iterate_results
      (mk_list_kwargs self_id (isoformat start) (isoformat end_)) answers in
  let '(out, o') := events_iterate_results trace o in
  (filter_yields (EventFilter.call event_filter) out, o').

End with_library.

(** An entry of the calendar list, with the keys that are read. *)
Record calendar_metadata := mk_calendar_metadata {
  m_id : option string;
  m_summary : option string
}.

(** A [CalendarAdapter]; its events service is the same for every adapter
    of a client. *)
Record CalendarAdapter := mk_CalendarAdapter {
  _id : string;
  metadata : calendar_metadata
}.

(** [CalendarAdapter.__init__(metadata, events_service)]. *)
Definition CalendarAdapter_init (metadata : calendar_metadata)
  : error + CalendarAdapter :=
  match m_id metadata with
  | None => inl (KeyError "id")
  | Some i => inr (mk_CalendarAdapter i metadata)
  end.

(** The [for] loop of [get_calendar] over what [iterate_results] does; the
    page tokens of the requests sent are returned with the dictionary. *)
Fixpoint get_calendar_for (trace : list (step unit calendar_metadata))
  (o : outcome unit) (_calendars : gmap string CalendarAdapter)
  : gmap string CalendarAdapter * list (option string) * outcome unit :=
  match trace with
  | [] => (_calendars, [], o)
  | Request _ token :: trace' =>
      let '(c, sent, o') := get_calendar_for trace' o _calendars in
      (c, token :: sent, o')
  | Yield metadata :: trace' =>
      match m_summary metadata with
      | None => (_calendars, [], Raised (KeyError "summary"))
      | Some cal_name =>
          match _calendars !! cal_name with
          | Some _ => get_calendar_for trace' o _calendars
          | None =>
              match CalendarAdapter_init metadata with
              | inl e => (_calendars, [], Raised e)
              | inr adapter =>
                  get_calendar_for trace' o
                    (<[cal_name := adapter]> _calendars)
              end
          end
      end
  end.

(** [GoogleClient.get_calendar]: the dictionary after the call, the page
    tokens of the requests sent, and the adapter returned. *)
Definition get_calendar (name : string)
  (answers : list (option (page calendar_metadata)))
  (_calendars : gmap string CalendarAdapter)
  : gmap string CalendarAdapter * list (option string)
    * outcome CalendarAdapter :=
  let '(c, sent, o) :=
    match _calendars !! name with
    | None =>
        let '(trace, o) := iterate_results tt answers in
        get_calendar_for trace o _calendars
    | Some _ => (_calendars, [], Returned tt)
    end in
  (c, sent,
   match o with
   | Returned _ =>
       match c !! name with
       | Some adapter => Returned adapter
       | None => Raised (KeyError name)
       end
   | Raised e => Raised e
   | Waiting => Waiting
   end).

End Google.

(** A stand-in for the library that knows the strings of one example. *)
Definition QUOTE : string := String "034"%char EmptyString.

Definition json_work_abc : string :=
  "{" +:+ QUOTE +:+ "src_calendar" +:+ QUOTE +:+ ": " +:+ QUOTE +:+ "work"
  +:+ QUOTE +:+ ", " +:+ QUOTE +:+ "src_id" +:+ QUOTE +:+ ": " +:+ QUOTE
  +:+ "abc" +:+ QUOTE +:+ "}".

#[global] Instance datetime_eq_dec : EqDecision datetime.
Proof. solve_decision. Defined.

Definition example_library : Google.Library := {|
  Google.isoformat dt :=
    if decide (dt = utc 2024 1 2 9 0) then "2024-01-02T09:00:00+00:00"
    else "2024-01-02T09:15:00+00:00";
  Google.fromisoformat text :=
    if String.eqb text "2024-01-02T09:00:00+00:00"
    then Some (utc 2024 1 2 9 0)
    else if String.eqb text "2024-01-02T09:15:00+00:00"
    then Some (utc 2024 1 2 9 15)
    else if String.eqb text "2024-01-02" then Some (utc 2024 1 2 0 0)
    else None;
  Google.strftime_ymd dt := "2024-01-02";
  Google.json_dumps m := json_work_abc;
  Google.json_loads text :=
    if String.eqb text json_work_abc then Some (tagged "work" "abc") else None;
  Google.LOCAL_TIMEZONE := 3600
|}.

(** The standup with a trailing blank line in its description, as synced. *)
Definition standup_synced : Event.t :=
  Event.mk None "Standup" (utc 2024 1 2 9 0) (utc 2024 1 2 9 15) false
           ("Daily sync " +:+ String Google.NEWLINE EmptyString)
           (tagged "work" "abc").

Definition standup_all_day : Event.t :=
  Event.mk None "Standup" (utc 2024 1 2 9 0) (utc 2024 1 2 9 15) true
           "Daily sync" (tagged "work" "abc").

(** A body whose description, typed by hand, has a header line in it. *)
Definition body_with_header_in_text : Google.body :=
  Google.mk_body (Some "g3") (Some "Standup")
    (Some (Google.mk_date_dict (Some "2024-01-02T09:00:00+00:00") None))
    (Some (Google.mk_date_dict (Some "2024-01-02T09:15:00+00:00") None))
    (Some ("Agenda" +:+ String Google.NEWLINE
             (Google.METADATA_HEADER +:+ String Google.NEWLINE "1. budget")))
    (Some "confirmed").

(** Two bodies of a listing: one confirmed, one tentative. *)
Definition body_standup : Google.body :=
  Google.mk_body (Some "g1") (Some "Standup")
    (Some (Google.mk_date_dict (Some "2024-01-02T09:00:00+00:00") None))
    (Some (Google.mk_date_dict (Some "2024-01-02T09:15:00+00:00") None))
    (Some "Daily sync") (Some "confirmed").

Definition body_lunch : Google.body :=
  Google.mk_body (Some "g4") (Some "Lunch?")
    (Some (Google.mk_date_dict (Some "2024-01-02T09:00:00+00:00") None))
    (Some (Google.mk_date_dict (Some "2024-01-02T09:15:00+00:00") None))
    None (Some "tentative").

Definition event_standup : Event.t :=
  Event.mk (Some "g1") "Standup" (utc 2024 1 2 9 0) (utc 2024 1 2 9 15) false
           "Daily sync" ∅.

(** A calendar list in which two calendars are called "work". *)
Definition cal_work : Google.calendar_metadata :=
  Google.mk_calendar_metadata (Some "w1") (Some "work").

Definition cal_home : Google.calendar_metadata :=
  Google.mk_calendar_metadata (Some "h1") (Some "home").

Definition cal_work_again : Google.calendar_metadata :=
  Google.mk_calendar_metadata (Some "w2") (Some "work").

Definition calendar_list
  : list (option (Google.page Google.calendar_metadata)) :=
  [Some (Google.mk_page (Some [cal_home; cal_work; cal_work_again]) None)].

(** The dictionary once that list has been read. *)
Definition cached_home_work : gmap string Google.CalendarAdapter :=
  <["work" := Google.mk_CalendarAdapter "w1" cal_work]>
    (<["home" := Google.mk_CalendarAdapter "h1" cal_home]> ∅).

(** * Properties *)

(** ** Datetime comparison *)

Lemma datetime_le_spec (a b : datetime) :
  datetime_le a b = true ↔ instant a ≤ instant b.
Proof. unfold datetime_le. apply Z.leb_le. Qed.

Lemma datetime_eq_spec (a b : datetime) :
  datetime_eq a b = true ↔ instant a = instant b.
Proof. unfold datetime_eq. apply Z.eqb_eq. Qed.

Lemma str_truthy_spec (s : string) : str_truthy s = true ↔ s ≠ EmptyString.
Proof.
  unfold str_truthy. rewrite negb_true_iff.
  destruct (String.eqb_spec s EmptyString); split; congruence.
Qed.

(** ** EventFilter *)

Lemma call_unfold (f : EventFilter.t) (event : Event.t) :
  EventFilter.call f event =
    not_or datetime_truthy (EventFilter.start f)
      (λ s, datetime_le s (Event.start event))
    && (not_or datetime_truthy (EventFilter.end_ f)
          (λ e, datetime_le (Event.end_ event) e)
    && (not_or Weekday_truthy (EventFilter.weekday f)
          (λ w, py_eq (PyInt (Weekday_value w))
                      (PyBoundMethod "weekday" (Event.start event)))
    && not_or str_truthy (EventFilter.src_calendar f)
          (λ c, bool_decide
                  (Event.metadata_get event "src_calendar" = Some c)))).
Proof. unfold EventFilter.call. simpl. by rewrite andb_true_r. Qed.

(** The filter does not look at the identifier of the event. *)
Lemma call_of_details (f : EventFilter.t) (i j : option string) (d : Details.t) :
  EventFilter.call f (Event.of_details i d)
  = EventFilter.call f (Event.of_details j d).
Proof. reflexivity. Qed.

(** Where the weekday bound is unset and the provenance bound is unset or a
    non-empty tag, the filter is the conjunction of the bounds that are set. *)
Lemma call_iff_bounds (f : EventFilter.t) (event : Event.t) :
  EventFilter.weekday f = None →
  EventFilter.src_calendar f ≠ Some EmptyString →
  EventFilter.call f event = true ↔ passes_every_bound f event.
Proof.
  intros Hw Hc. rewrite call_unfold. unfold passes_every_bound.
  destruct f as [c s e w]; simpl in *. subst w. simpl.
  rewrite !andb_true_iff.
  assert (Hs : not_or datetime_truthy s
                 (λ s0, datetime_le s0 (Event.start event)) = true
               ↔ ∀ s0, s = Some s0 → instant s0 ≤ instant (Event.start event)).
  { destruct s as [s0|]; simpl.
    - rewrite datetime_le_spec. split; [intros ? ? [= <-]; done | eauto].
    - split; [intros _ ? [=] | done]. }
  assert (He : not_or datetime_truthy e
                 (λ e0, datetime_le (Event.end_ event) e0) = true
               ↔ ∀ e0, e = Some e0 → instant (Event.end_ event) ≤ instant e0).
  { destruct e as [e0|]; simpl.
    - rewrite datetime_le_spec. split; [intros ? ? [= <-]; done | eauto].
    - split; [intros _ ? [=] | done]. }
  assert (Hcal : not_or str_truthy c
                 (λ c0, bool_decide
                          (Event.metadata_get event "src_calendar" = Some c0))
                 = true
               ↔ ∀ c0, c = Some c0 →
                       Event.metadata_get event "src_calendar" = Some c0).
  { destruct c as [c0|]; simpl.
    - assert (str_truthy c0 = true) as -> by (apply str_truthy_spec; congruence).
      simpl. rewrite bool_decide_eq_true.
      split; [intros ? ? [= <-]; done | eauto].
    - split; [intros _ ? [=] | done]. }
  rewrite Hs, He, Hcal. split.
  - intros (? & ? & ?). repeat split; done.
  - intros (? & ? & _ & ?). done.
Qed.

(** An EventFilter with no bounds set passes every event. *)
Lemma call_default (event : Event.t) :
  EventFilter.call EventFilter.default event = true.
Proof. reflexivity. Qed.

(** C2: filter composition.  The code does not decide the conjunction of the
    bounds that are set: a filter whose only bound is the weekday Monday
    rejects an event that starts on a Monday, although the event satisfies
    every bound of the filter. *)
Theorem C2_monday_filter_rejects_monday_event :
  passes_every_bound monday_filter monday_event
  ∧ EventFilter.call monday_filter monday_event = false.
Proof.
  split; [|reflexivity].
  repeat split; simpl; try (intros ? [=]; fail).
  intros w [= <-]. reflexivity.
Qed.

(** C8: a filter whose weekday is Sunday, the member of value 0, answers on
    every event as the same filter with the weekday unset. *)
Theorem C8_sunday_weekday_is_unset
  (src_calendar : option string) (start end_ : option datetime)
  (event : Event.t) :
  EventFilter.call (EventFilter.mk src_calendar start end_ (Some sunday)) event
  = EventFilter.call (EventFilter.mk src_calendar start end_ None) event.
Proof. rewrite !call_unfold. reflexivity. Qed.

(** C10: a filter whose weekday is set to a member of non-zero value, Monday
    through Saturday, rejects every event. *)
Theorem C10_nonzero_weekday_rejects_all
  (f : EventFilter.t) (w : Weekday) (event : Event.t) :
  EventFilter.weekday f = Some w →
  Weekday_value w ≠ 0 →
  EventFilter.call f event = false.
Proof.
  intros Hw Hv. rewrite call_unfold, Hw. simpl.
  assert (Weekday_truthy w = true) as ->.
  { unfold Weekday_truthy. apply negb_true_iff, Z.eqb_neq, Hv. }
  simpl. by rewrite !andb_false_r.
Qed.

Lemma C10_nonzero_weekday_rejects_all_witness :
  EventFilter.call monday_filter monday_event = false.
Proof.
  apply (C10_nonzero_weekday_rejects_all monday_filter monday monday_event).
  - reflexivity.
  - simpl. lia.
Defined.

(** ** The keyword arguments of one source event *)

Lemma tzinfo_datetime_add (dt : datetime) (o : timedelta) :
  tzinfo (datetime_add dt o) = tzinfo dt.
Proof.
  unfold datetime_add.
  destruct (Calendrical.ord2ymd _) as [[y m] d]. reflexivity.
Qed.

Lemma sync_details_start (config : SyncConfig.t) (event : Event.t) :
  Details.start (sync_details config event) = patch_start config event.
Proof. reflexivity. Qed.

Lemma sync_details_end (config : SyncConfig.t) (event : Event.t) :
  Details.end_ (sync_details config event) = patch_end config event.
Proof. reflexivity. Qed.

Lemma sync_details_metadata (config : SyncConfig.t) (event : Event.t) :
  Details.metadata (sync_details config event) = sync_metadata config event.
Proof. reflexivity. Qed.

(** C6, as the code has it: [start_time] replaces the hour and the minute of
    the source start and nothing else (date, second, microsecond and timezone
    are the source's); a non-zero [start_offset] is added after that; the
    same holds for the end with [end_time] and [end_offset], independently;
    the timezone of the source is kept in every case. *)
Theorem C6_hour_minute_override_then_offset
  (config : SyncConfig.t) (event : Event.t) :
  (∀ t, SyncConfig.start_time config = Some t →
     let s := Event.start event in
     let replaced :=
       mk_datetime (year s) (month s) (day s) (t_hour t) (t_minute t)
                   (second s) (microsecond s) (tzinfo s) in
     Details.start (sync_details config event) =
       match SyncConfig.start_offset config with
       | Some o => if timedelta_truthy o then datetime_add replaced o
                   else replaced
       | None => replaced
       end)
  ∧ (∀ t, SyncConfig.end_time config = Some t →
     let s := Event.end_ event in
     let replaced :=
       mk_datetime (year s) (month s) (day s) (t_hour t) (t_minute t)
                   (second s) (microsecond s) (tzinfo s) in
     Details.end_ (sync_details config event) =
       match SyncConfig.end_offset config with
       | Some o => if timedelta_truthy o then datetime_add replaced o
                   else replaced
       | None => replaced
       end)
  ∧ tzinfo (Details.start (sync_details config event))
    = tzinfo (Event.start event)
  ∧ tzinfo (Details.end_ (sync_details config event))
    = tzinfo (Event.end_ event).
Proof.
  rewrite sync_details_start, sync_details_end.
  unfold patch_start, patch_end. repeat split.
  - intros t ->. reflexivity.
  - intros t ->. reflexivity.
  - destruct (SyncConfig.start_time config) as [t|],
             (SyncConfig.start_offset config) as [o|]; simpl;
      try destruct (timedelta_truthy o); by rewrite ?tzinfo_datetime_add.
  - destruct (SyncConfig.end_time config) as [t|],
             (SyncConfig.end_offset config) as [o|]; simpl;
      try destruct (timedelta_truthy o); by rewrite ?tzinfo_datetime_add.
Qed.

(** Scenario 4 of the specification, in the timezone of the source. *)
Lemma C6_hour_minute_override_then_offset_witness :
  Details.start (sync_details cfg_time_offset review_0800)
  = utc_plus1 2024 3 1 10 30 0.
Proof.
  rewrite (proj1 (C6_hour_minute_override_then_offset
                    cfg_time_offset review_0800) (mk_time 10 0 0 0) eq_refl).
  reflexivity.
Defined.

(** C6 as stated fails: the seconds of the source start survive the
    override, so the result is not the source start with its time of day
    replaced by [start_time]. *)
Lemma C6_time_of_day_not_replaced :
  SyncConfig.start_time cfg_time_only = Some (mk_time 10 0 0 0)
  ∧ Details.start (sync_details cfg_time_only review_080045)
    = utc_plus1 2024 3 1 10 0 45
  ∧ replace_time_of_day (Event.start review_080045) (mk_time 10 0 0 0)
    = utc_plus1 2024 3 1 10 0 0
  ∧ datetime_eq (Details.start (sync_details cfg_time_only review_080045))
      (replace_time_of_day (Event.start review_080045) (mk_time 10 0 0 0))
    = false.
Proof. repeat split. Qed.

(** ** has_event *)

Lemma matches_same_triple (a b : Event.t) :
  Event.matches a b = true ↔ same_triple a b.
Proof.
  unfold Event.matches, same_triple.
  rewrite !andb_true_iff, !datetime_eq_spec, String.eqb_eq. tauto.
Qed.

Lemma day_filter_call (dt : datetime) (event : Event.t) :
  EventFilter.call
    (EventFilter.mk None (Some (day_start dt))
       (Some (replace_hour_minute (day_start dt) 23 59)) None) event = true
  ↔ on_day_of dt event.
Proof.
  rewrite call_unfold.
  cbn [not_or EventFilter.start EventFilter.end_ EventFilter.weekday
       EventFilter.src_calendar datetime_truthy negb orb].
  rewrite !andb_true_r, andb_true_iff, !datetime_le_spec. reflexivity.
Qed.

Section has_event_spec.
Context {S : Type} `{Calendar S}.

(** A store whose [events] applies the filter to its contents, as the
    contract asks of every store. *)
Variable contents : S → list Event.t.
Hypothesis events_filtered : ∀ f s,
  events (Some f) s = (s, inr (List.filter (EventFilter.call f) (contents s))).

(** C7: [has_event] returns, leaves the store as it is, and answers true
    exactly when some event of the store on the calendar day of
    [search.start] (00:00 through 23:59 in its timezone) equals [search] on
    (title, start, end); the identifier, [all_day], [description] and
    [metadata] of [search] play no part. *)
Theorem C7_has_event_iff (s : S) (search : Event.t) :
  (∃ b, has_event search s = (s, inr b)
        ∧ (b = true ↔
           ∃ e, In e (contents s)
                ∧ on_day_of (Event.start search) e
                ∧ same_triple e search))
  ∧ (∀ id' all_day' description' metadata',
       has_event (Event.mk id' (Event.title search) (Event.start search)
                           (Event.end_ search) all_day' description' metadata')
                 s
       = has_event search s).
Proof.
  split.
  - unfold has_event, bind. rewrite events_filtered. eexists. split; [done|].
    rewrite existsb_exists. split.
    + intros (e & [Hin Hday]%filter_In & Hm). exists e.
      by rewrite <- day_filter_call, <- matches_same_triple.
    + intros (e & Hin & Hday & Hm). exists e.
      rewrite filter_In, day_filter_call, matches_same_triple. done.
  - intros. unfold has_event, bind. simpl. rewrite !events_filtered.
    reflexivity.
Qed.

End has_event_spec.

Lemma C7_has_event_iff_witness :
  ∃ b, has_event monday_event static_week = (static_week, inr b)
       ∧ (b = true ↔
          ∃ e, In e (dict_values (StaticCalendar._events static_week))
               ∧ on_day_of (Event.start monday_event) e
               ∧ same_triple e monday_event).
Proof.
  apply (C7_has_event_iff
           (λ s, dict_values (StaticCalendar._events s))).
  intros f s. reflexivity.
Defined.

(** ** StaticCalendar *)

(** C9: on a StaticCalendar each of [add_event], [create_event],
    [update_event] and [delete_event] raises and leaves the store as it was;
    what is raised is the [TypeError] of calling [NotImplemented], not an
    unsupported-operation signal. *)
Theorem C9_static_mutators_raise_TypeError
  (self : StaticCalendar.t) (event : Event.t) (id : option string)
  (kwargs : Details.t) :
  let e := TypeError "'NotImplementedType' object is not callable" in
  add_event event self = (self, inl e)
  ∧ create_event id kwargs self = (self, inl e)
  ∧ update_event event self = (self, inl e)
  ∧ delete_event id self = (self, inl e)
  ∧ (∀ msg, e ≠ Unsupported msg).
Proof. repeat split. intros msg [=]. Qed.

(** ** Dictionaries *)

Section pydict_facts.
Context {K V : Type} `{EqDecision K}.
Implicit Types (d : list (K * V)) (k : K) (v : V).

Lemma dict_get_Some_elem d k v : dict_get k d = Some v → (k, v) ∈ d.
Proof.
  induction d as [|[k' v'] d IH]; simpl; [done|].
  case_decide as Hk.
  - intros [= ->]. subst. left.
  - intros Hg. right. auto.
Qed.

Lemma dict_get_None d k : dict_get k d = None ↔ k ∉ dict_keys d.
Proof.
  induction d as [|[k' v'] d IH]; simpl.
  - split; [intros _; apply not_elem_of_nil | done].
  - rewrite not_elem_of_cons. case_decide as Hk.
    + split; [done | intros [? _]; done].
    + rewrite IH. tauto.
Qed.

Lemma dict_get_is_Some d k : is_Some (dict_get k d) ↔ k ∈ dict_keys d.
Proof.
  destruct (dict_get k d) as [v|] eqn:Hg.
  - split; [intros _ | eauto].
    apply dict_get_Some_elem in Hg.
    apply (list_elem_of_fmap_2 fst) in Hg. done.
  - apply dict_get_None in Hg. split; [intros [? [=]] | done].
Qed.

Lemma dict_get_NoDup d k v :
  NoDup (dict_keys d) → (k, v) ∈ d → dict_get k d = Some v.
Proof.
  induction d as [|[k' v'] d IH]; simpl.
  - intros _ Hin. by apply elem_of_nil in Hin.
  - rewrite NoDup_cons. intros [Hk' Hnd] Hin.
    apply elem_of_cons in Hin as [[= -> ->] | Hin].
    + by rewrite decide_True.
    + case_decide as Hk; [|auto]. subst k'.
      apply (list_elem_of_fmap_2 fst) in Hin. done.
Qed.

Lemma dict_set_absent d k v :
  dict_get k d = None → dict_set k v d = d ++ [(k, v)].
Proof.
  induction d as [|[k' v'] d IH]; simpl; [done|].
  case_decide; [done|]. intros Hg. by rewrite IH.
Qed.

Lemma dict_remove_elem d k kv : kv ∈ dict_remove k d → kv ∈ d.
Proof.
  induction d as [|[k' v'] d IH]; simpl; [done|].
  case_decide.
  - intros. by right.
  - rewrite !elem_of_cons. intros [->|?]; auto.
Qed.

Lemma dict_remove_other d k k' v :
  (k', v) ∈ d → k' ≠ k → (k', v) ∈ dict_remove k d.
Proof.
  induction d as [|[k0 v0] d IH]; simpl; [done|].
  rewrite elem_of_cons. intros [[= -> ->] | Hin] Hne.
  - rewrite decide_False by done. left.
  - case_decide; [done|]. right. auto.
Qed.

Lemma dict_remove_perm d k v :
  dict_get k d = Some v → d ≡ₚ (k, v) :: dict_remove k d.
Proof.
  induction d as [|[k' v'] d IH]; simpl; [done|].
  case_decide as Hk.
  - intros [= ->]. by subst.
  - intros Hg. rewrite (IH Hg) at 1. apply Permutation_swap.
Qed.

Lemma dict_remove_NoDup d k :
  NoDup (dict_keys d) → NoDup (dict_keys (dict_remove k d)).
Proof.
  induction d as [|[k' v'] d IH]; simpl; [done|].
  rewrite NoDup_cons. intros [Hk' Hnd]. case_decide; [done|].
  simpl. apply NoDup_cons. split; [|auto].
  intros Hin. apply Hk'.
  apply list_elem_of_fmap in Hin as ([k0 v0] & -> & Hin).
  apply dict_remove_elem in Hin.
  by apply (list_elem_of_fmap_2 fst) in Hin.
Qed.

Lemma dict_remove_gone d k :
  NoDup (dict_keys d) → k ∉ dict_keys (dict_remove k d).
Proof.
  induction d as [|[k' v'] d IH]; simpl.
  - intros _. apply not_elem_of_nil.
  - rewrite NoDup_cons. intros [Hk' Hnd]. case_decide as Hk.
    + by subst.
    + simpl. rewrite not_elem_of_cons. split; [done | auto].
Qed.

Lemma dict_values_remove_perm d k v :
  dict_get k d = Some v → dict_values d ≡ₚ v :: dict_values (dict_remove k d).
Proof.
  intros Hg. unfold dict_values.
  by rewrite (dict_remove_perm d k v Hg) at 1.
Qed.

End pydict_facts.

(** ** The index of previously synced records *)

Lemma index_event_unfold (I : list (option string * option string))
  (D : list (option string)) (r : Event.t) :
  index_event (I, D) r =
    match dict_get (src_id_of r) I with
    | Some _ => (I, D ++ [Event.id r])
    | None => (dict_set (src_id_of r) (Event.id r) I, D)
    end.
Proof. reflexivity. Qed.

Lemma index_event_fold (evs : list Event.t)
  (I : list (option string * option string)) (D : list (option string)) :
  NoDup (dict_keys I) →
  ∃ I' D',
    fold_left index_event evs (I, D) = (I', D')
    ∧ NoDup (dict_keys I')
    ∧ dict_values I' ++ D' ≡ₚ dict_values I ++ D ++ map Event.id evs
    ∧ (∀ kv, kv ∈ I → kv ∈ I')
    ∧ (∀ i, i ∈ D → i ∈ D')
    ∧ (∀ k v, (k, v) ∈ I' →
         (k, v) ∈ I ∨ ∃ r, r ∈ evs ∧ src_id_of r = k ∧ Event.id r = v)
    ∧ (∀ k, k ∈ dict_keys I' ↔ k ∈ dict_keys I ∨ k ∈ map src_id_of evs).
Proof.
  revert I D. induction evs as [|r evs IH]; intros I D Hnd.
  - exists I, D. simpl. rewrite app_nil_r. repeat split; try done.
    + auto.
    + auto.
    + intros [?|Hin]; [done | by apply elem_of_nil in Hin].
  - cbn [fold_left map]. rewrite index_event_unfold.
    destruct (dict_get (src_id_of r) I) as [v|] eqn:Hg.
    + destruct (IH I (D ++ [Event.id r]) Hnd)
        as (I' & D' & Hf & Hnd' & Hperm & Hmono & HD & Hsrc & Hkeys).
      exists I', D'. rewrite Hf. repeat split; try done.
      * rewrite Hperm. apply Permutation_app_head.
        rewrite <- app_assoc. done.
      * intros i Hi. apply HD, elem_of_app. by left.
      * intros k v' Hin. destruct (Hsrc k v' Hin) as [?|(r' & ? & ? & ?)];
          [by left | right; exists r'; split; [by right | done]].
      * intros Hin. apply Hkeys in Hin as [?|?]; [by left | right; by right].
      * intros [Hin | Hin]; apply Hkeys; [by left|].
        apply elem_of_cons in Hin as [-> | Hin]; [left | by right].
        apply dict_get_is_Some. eauto.
    + rewrite (dict_set_absent _ _ _ Hg).
      assert (Hnd1 : NoDup (dict_keys (I ++ [(src_id_of r, Event.id r)]))).
      { unfold dict_keys. rewrite map_app. simpl.
        apply NoDup_app. repeat split; [done | | apply NoDup_singleton].
        intros k Hk ->%list_elem_of_singleton.
        by apply dict_get_None in Hg. }
      destruct (IH _ D Hnd1)
        as (I' & D' & Hf & Hnd' & Hperm & Hmono & HD & Hsrc & Hkeys).
      exists I', D'. rewrite Hf. repeat split; try done.
      * rewrite Hperm. unfold dict_values. rewrite map_app. simpl.
        rewrite <- !app_assoc. apply Permutation_app_head. simpl.
        apply Permutation_middle.
      * intros kv Hin. apply Hmono, elem_of_app. by left.
      * intros k v' Hin. destruct (Hsrc k v' Hin) as [Hin'|(r' & ? & ? & ?)].
        -- apply elem_of_app in Hin' as [?|Heq%list_elem_of_singleton];
             [by left|]. injection Heq as -> ->.
           right. exists r. split; [left | done].
        -- right. exists r'. split; [by right | done].
      * intros Hin. apply Hkeys in Hin as [Hin|?]; [|right; by right].
        unfold dict_keys in Hin. rewrite map_app in Hin. simpl in Hin.
        apply elem_of_app in Hin as [? | ->%list_elem_of_singleton];
          [by left | right; left].
      * intros [Hin | Hin]; apply Hkeys.
        -- left. unfold dict_keys. rewrite map_app. apply elem_of_app. by left.
        -- apply elem_of_cons in Hin as [-> | Hin]; [left | by right].
           unfold dict_keys. rewrite map_app. apply elem_of_app. right. left.
Qed.

(** ** The writable store *)

Lemma elem_of_stored (s : MemCalendar.t) (ev : Event.t) :
  ev ∈ MemCalendar.stored s ↔
  ∃ k d, ev = Event.of_details (Some k) d ∧ MemCalendar.records s !! k = Some d.
Proof.
  unfold MemCalendar.stored. change map with (@fmap list _). 
  rewrite list_elem_of_fmap. split.
  - intros ([k d] & -> & Hin%elem_of_map_to_list). eauto.
  - intros (k & d & -> & Hl). exists (k, d).
    split; [done | by apply elem_of_map_to_list].
Qed.

Lemma stored_ids_NoDup (s : MemCalendar.t) :
  NoDup (map Event.id (MemCalendar.stored s)).
Proof.
  unfold MemCalendar.stored. rewrite map_map. simpl.
  rewrite <- (map_map fst Some).
  apply (NoDup_fmap_2 Some), NoDup_fst_map_to_list.
Qed.

Lemma mem_events (f : EventFilter.t) (s : MemCalendar.t) :
  events (Some f) s
  = (s, inr (List.filter (EventFilter.call f) (MemCalendar.stored s))).
Proof. reflexivity. Qed.

Lemma mem_has_event (search : Event.t) (s : MemCalendar.t) :
  ∃ b, has_event search s = (s, inr b).
Proof. unfold has_event, bind. rewrite mem_events. eauto. Qed.

Lemma elem_of_filter_stored (f : EventFilter.t) (s : MemCalendar.t)
  (ev : Event.t) :
  ev ∈ List.filter (EventFilter.call f) (MemCalendar.stored s) ↔
  ∃ k d, ev = Event.of_details (Some k) d
         ∧ MemCalendar.records s !! k = Some d
         ∧ EventFilter.call f ev = true.
Proof.
  rewrite list_elem_of_In, filter_In, <- list_elem_of_In, elem_of_stored.
  split.
  - intros ((k & d & -> & Hl) & Hc). eauto 6.
  - intros (k & d & -> & Hl & Hc). eauto 6.
Qed.

Lemma filter_map_NoDup {A B} (f : A → B) (p : A → bool) (l : list A) :
  NoDup (map f l) → NoDup (map f (List.filter p l)).
Proof.
  induction l as [|x l IH]; simpl; [done|].
  rewrite NoDup_cons. intros [Hx Hnd].
  destruct (p x); simpl; [|auto].
  apply NoDup_cons. split; [|auto].
  intros Hin. apply Hx.
  change map with (@fmap list _) in *.
  apply list_elem_of_fmap in Hin as (y & -> & Hy).
  apply list_elem_of_fmap_2.
  apply list_elem_of_In, filter_In in Hy as [Hy _].
  by apply list_elem_of_In.
Qed.

(** ** One turn of the second loop *)

Lemma sync_event_step (config : SyncConfig.t) (s : MemCalendar.t)
  (I : list (option string * option string)) (D : list (option string))
  (e : Event.t) :
  index_ok s I D →
  ∃ s' I', sync_event config I e s = (s', inr I')
           ∧ sync_step config s I e s' I'.
Proof.
  intros (HndK & HndV & Hdom). unfold sync_event.
  destruct (dict_get (Event.id e) I) as [v|] eqn:Hg.
  - destruct (Hdom v) as (k & -> & [d Hd]).
    { apply elem_of_app. left. apply dict_get_Some_elem in Hg.
      by apply (list_elem_of_fmap_2 snd) in Hg. }
    eexists _, _. split; [|by apply step_update; eauto].
    unfold bind. simpl. unfold MemCalendar.get_event_. simpl.
    rewrite Hd. simpl. unfold MemCalendar.update_event_. simpl.
    rewrite decide_True by eauto. reflexivity.
  - destruct (mem_has_event (Event.of_details None (sync_details config e)) s)
      as [b Hb].
    destruct b.
    + exists s, I. split; [|by apply step_skip].
      unfold bind at 1. simpl. unfold bind at 1. rewrite Hb. reflexivity.
    + eexists _, I. split; [|by apply step_add].
      unfold bind at 1. simpl. unfold bind at 1. rewrite Hb. reflexivity.
Qed.

Lemma sync_step_index_ok (config : SyncConfig.t) (s s' : MemCalendar.t)
  (I I' : list (option string * option string)) (D : list (option string))
  (e : Event.t) :
  index_ok s I D → sync_step config s I e s' I' → index_ok s' I' D.
Proof.
  intros (HndK & HndV & Hdom) Hstep.
  destruct Hstep as [k Hg Hk | Hg Hb | Hg Hb]; simpl.
  - pose proof (dict_values_remove_perm _ _ _ Hg) as Hperm.
    rewrite Hperm in HndV. simpl in HndV. apply NoDup_cons in HndV as [_ HndV].
    split; [by apply dict_remove_NoDup|]. split; [done|].
    intros v Hv. destruct (Hdom v) as (k' & -> & Hk').
    { rewrite Hperm. by right. }
    exists k'. split; [done|]. simpl. rewrite lookup_insert_is_Some.
    destruct (decide (k = k')); auto.
  - done.
  - split; [done|]. split; [done|].
    intros v Hv. destruct (Hdom v Hv) as (k' & -> & Hk').
    exists k'. split; [done|]. simpl. rewrite lookup_insert_is_Some.
    destruct (decide (fresh (dom (MemCalendar.records s)) = k')); auto.
Qed.

Lemma for_fold_sync_steps (config : SyncConfig.t) (src : list Event.t)
  (s : MemCalendar.t) (I : list (option string * option string))
  (D : list (option string)) :
  index_ok s I D →
  ∃ s' I', for_fold (sync_event config) src I s = (s', inr I')
           ∧ sync_steps config s I src s' I'
           ∧ index_ok s' I' D.
Proof.
  revert s I. induction src as [|e src IH]; intros s I Hok.
  - exists s, I. split; [done|]. split; [constructor | done].
  - destruct (sync_event_step config s I D e Hok) as (s1 & I1 & Hrun & Hstep).
    pose proof (sync_step_index_ok _ _ _ _ _ _ _ Hok Hstep) as Hok1.
    destruct (IH s1 I1 Hok1) as (s2 & I2 & Hrun2 & Hsteps & Hok2).
    exists s2, I2. split; [|split; [econstructor; eauto | done]].
    simpl. unfold bind. rewrite Hrun. exact Hrun2.
Qed.

(** ** What the second loop keeps *)

Lemma sync_steps_index_ok (config : SyncConfig.t) (s s' : MemCalendar.t)
  (I I' : list (option string * option string)) (D : list (option string))
  (src : list Event.t) :
  sync_steps config s I src s' I' → index_ok s I D → index_ok s' I' D.
Proof.
  induction 1 as [|s I e s1 I1 src s2 I2 Hstep _ IH]; [done|].
  intros Hok. apply IH. eapply sync_step_index_ok; eauto.
Qed.




(** The second loop deletes nothing: it journals writes only, at most one
    for each source event. *)
Lemma sync_steps_calls (config : SyncConfig.t) (s s' : MemCalendar.t)
  (I I' : list (option string * option string)) (src : list Event.t) :
  sync_steps config s I src s' I' →
  ∃ delta, MemCalendar.calls s' = MemCalendar.calls s ++ delta
           ∧ forallb is_write delta = true
           ∧ (length delta ≤ length src)%nat.
Proof.
  induction 1 as [s I|s I e s1 I1 src s2 I2 Hstep _ (delta & -> & Hw & Hlen)].
  - exists []. by rewrite app_nil_r.
  - destruct Hstep; simpl in *.
    + eexists (_ :: delta). rewrite <- app_assoc. simpl.
      split; [done|]. split; [done | lia].
    + exists delta. split; [done|]. split; [done | lia].
    + eexists (_ :: delta). rewrite <- app_assoc. simpl.
      split; [done|]. split; [done | lia].
Qed.

(** ** The cleanup *)

Lemma lookup_delete_ids (L : list (option string))
  (m : gmap string Details.t) (k : string) :
  delete_ids L m !! k = if decide (Some k ∈ L) then None else m !! k.
Proof.
  unfold delete_ids. revert m. induction L as [|v L IH]; intros m.
  - done.
  - cbn [fold_left]. rewrite IH. destruct v as [k'|].
    + destruct (decide (k = k')) as [->|Hne].
      * rewrite lookup_delete_eq.
        rewrite (decide_True (P := Some k' ∈ Some k' :: L)) by left.
        by case_decide.
      * rewrite lookup_delete_ne by done.
        destruct (decide (Some k ∈ L)) as [Hin|Hnin].
        -- by rewrite decide_True by (by right).
        -- rewrite decide_False; [done|].
           rewrite not_elem_of_cons. split; congruence.
    + destruct (decide (Some k ∈ L)) as [Hin|Hnin].
      * by rewrite decide_True by (by right).
      * rewrite decide_False; [done|].
        rewrite not_elem_of_cons. split; done.
Qed.

Lemma for_each_delete (L : list (option string)) (s : MemCalendar.t) :
  NoDup L →
  (∀ v, v ∈ L → ∃ k, v = Some k ∧ is_Some (MemCalendar.records s !! k)) →
  for_each delete_event L s
  = (MemCalendar.mk (delete_ids L (MemCalendar.records s))
       (MemCalendar.calls s ++ map MemCalendar.DeleteEvent L),
     inr tt).
Proof.
  revert s. induction L as [|v L IH]; intros s Hnd Hdom.
  - simpl. rewrite app_nil_r. by destruct s.
  - apply NoDup_cons in Hnd as [Hv Hnd].
    destruct (Hdom v) as (k & -> & Hk); [left|].
    simpl. unfold bind. simpl. unfold MemCalendar.delete_event_ at 1.
    rewrite decide_True by done.
    rewrite IH; [| done |].
    + simpl. rewrite <- app_assoc. reflexivity.
    + intros v Hin. destruct (Hdom v) as (k' & -> & Hk'); [by right|].
      exists k'. split; [done|]. simpl.
      rewrite lookup_delete_ne; [done|]. intros ->. done.
Qed.

(** ** The whole run on a writable store *)

Lemma sync_filter_call (config : SyncConfig.t) (now_start now_end : datetime)
  (ev : Event.t) :
  EventFilter.call (sync_filter config now_start now_end) ev = true ↔
  instant (window_start config now_start) ≤ instant (Event.start ev)
  ∧ instant (Event.end_ ev) ≤ instant (window_end config now_end)
  ∧ (SyncConfig.src_calendar config = EmptyString
     ∨ Event.metadata_get ev "src_calendar"
       = Some (SyncConfig.src_calendar config)).
Proof.
  rewrite call_unfold. unfold sync_filter.
  cbn [not_or EventFilter.start EventFilter.end_ EventFilter.weekday
       EventFilter.src_calendar datetime_truthy negb orb andb].
  rewrite !andb_true_iff, !datetime_le_spec, orb_true_iff, negb_true_iff.
  rewrite bool_decide_eq_true. unfold window_start, window_end.
  assert (str_truthy (SyncConfig.src_calendar config) = false
          ↔ SyncConfig.src_calendar config = EmptyString) as ->; [|tauto].
  unfold str_truthy. rewrite negb_false_iff. apply String.eqb_eq.
Qed.


Lemma NoDup_map_inj {A B} (f : A → B) (l : list A) (x y : A) :
  NoDup (map f l) → x ∈ l → y ∈ l → f x = f y → x = y.
Proof.
  induction l as [|z l IH]; simpl.
  - intros _ Hx. by apply elem_of_nil in Hx.
  - rewrite NoDup_cons. intros [Hz Hnd] Hx Hy Heq.
    change map with (@fmap list _) in *.
    apply elem_of_cons in Hx as [->|Hx]; apply elem_of_cons in Hy as [->|Hy].
    + done.
    + exfalso. apply Hz. rewrite Heq. by apply list_elem_of_fmap_2.
    + exfalso. apply Hz. rewrite <- Heq. by apply list_elem_of_fmap_2.
    + auto.
Qed.


Lemma index_events_ok (f : EventFilter.t) (s : MemCalendar.t)
  (I0 : list (option string * option string)) (D0 : list (option string)) :
  index_events (List.filter (EventFilter.call f) (MemCalendar.stored s))
  = (I0, D0) →
  index_ok s I0 D0.
Proof.
  intros Hidx. unfold index_events in Hidx.
  destruct (index_event_fold
              (List.filter (EventFilter.call f) (MemCalendar.stored s))
              [] [] (NoDup_nil_2))
    as (I' & D' & Hf & Hnd & Hperm & _).
  rewrite Hidx in Hf. injection Hf as <- <-. simpl in Hperm.
  split; [done|]. split.
  - rewrite Hperm. apply filter_map_NoDup, stored_ids_NoDup.
  - intros v Hv. rewrite Hperm in Hv.
    change map with (@fmap list _) in Hv.
    apply list_elem_of_fmap in Hv as (ev & -> & Hev).
    apply elem_of_filter_stored in Hev as (k & d & -> & Hl & _).
    exists k. split; [done | eauto].
Qed.

Lemma delete_ids_app (L1 L2 : list (option string))
  (m : gmap string Details.t) :
  delete_ids (L1 ++ L2) m = delete_ids L2 (delete_ids L1 m).
Proof. unfold delete_ids. apply fold_left_app. Qed.

(** On a writable store [sync_from] always runs to its end.  The result is
    described by the index of the first loop, the steps of the second loop
    and the deletion of what the index still holds and of the duplicates. *)
Lemma sync_from_run (src : list Event.t) (config : SyncConfig.t)
  (now_start now_end : datetime) (s : MemCalendar.t) :
  ∃ I0 D0 s1 I1,
    index_events
      (List.filter (EventFilter.call (sync_filter config now_start now_end))
                   (MemCalendar.stored s)) = (I0, D0)
    ∧ index_ok s I0 D0
    ∧ for_fold (sync_event config) src I0 s = (s1, inr I1)
    ∧ sync_steps config s I0 src s1 I1
    ∧ index_ok s1 I1 D0
    ∧ sync_from src config now_start now_end s
      = (MemCalendar.mk
           (delete_ids (dict_values I1 ++ D0) (MemCalendar.records s1))
           (MemCalendar.calls s1
            ++ map MemCalendar.DeleteEvent (dict_values I1 ++ D0)),
         inr tt).
Proof.
  destruct (index_events
      (List.filter (EventFilter.call (sync_filter config now_start now_end))
                   (MemCalendar.stored s))) as [I0 D0] eqn:Hidx.
  pose proof (index_events_ok _ _ _ _ Hidx) as Hok.
  destruct (for_fold_sync_steps config src s I0 D0 Hok)
    as (s1 & I1 & Hrun & Hsteps & Hok1).
  exists I0, D0, s1, I1. do 5 (split; [done|]).
  unfold sync_from. unfold bind at 1. rewrite mem_events, Hidx.
  unfold bind at 1. rewrite Hrun.
  destruct Hok1 as (_ & HndV & Hdom).
  apply NoDup_app in HndV as (HndI & Hdisj & HndD).
  unfold bind. rewrite for_each_delete; [| done |].
  - rewrite for_each_delete; [| done |].
    + simpl. rewrite delete_ids_app, map_app, <- app_assoc. reflexivity.
    + intros v Hv. destruct (Hdom v) as (k & -> & Hk).
      { apply elem_of_app. by right. }
      exists k. split; [done|]. simpl. rewrite lookup_delete_ids.
      rewrite decide_False; [done|]. intros Hin. by apply (Hdisj (Some k)).
  - intros v Hv. apply Hdom, elem_of_app. by left.
Qed.







(** ** New records *)



(** The metadata of a new record has the two reserved keys and no other. *)
Lemma sync_metadata_lookup (config : SyncConfig.t) (e : Event.t)
  (key : string) :
  sync_metadata config e !! key =
    if decide (key = "src_calendar")
    then Some (Some (SyncConfig.src_calendar config))
    else if decide (key = "src_id") then Some (Event.id e) else None.
Proof.
  unfold sync_metadata. repeat case_decide; subst.
  - by rewrite lookup_insert_eq.
  - rewrite lookup_insert_ne by done. by rewrite lookup_insert_eq.
  - by rewrite !lookup_insert_ne by done.
Qed.


Lemma index_ok_fresh (s : MemCalendar.t)
  (I : list (option string * option string)) (D : list (option string)) :
  index_ok s I D →
  Some (fresh (dom (MemCalendar.records s))) ∉ dict_values I ++ D.
Proof.
  intros (_ & _ & Hdom) Hin.
  destruct (Hdom _ Hin) as (k & [= <-] & Hk).
  apply elem_of_dom in Hk. by apply is_fresh in Hk.
Qed.




(** ** Running again on a reconciled destination *)

Lemma details_src_id_sync (config : SyncConfig.t) (e : Event.t) :
  details_src_id (sync_details config e) = Event.id e.
Proof.
  unfold details_src_id. rewrite sync_details_metadata, sync_metadata_lookup.
  rewrite decide_False by done. by rewrite decide_True.
Qed.

Lemma passes_of_details (f : EventFilter.t) (i : option string)
  (d : Details.t) :
  EventFilter.call f (Event.of_details i d) = true ↔ passes f d.
Proof. unfold passes. by rewrite (call_of_details f i None d). Qed.

Lemma src_id_of_details (i : option string) (d : Details.t) :
  src_id_of (Event.of_details i d) = details_src_id d.
Proof. reflexivity. Qed.

(** Without repeated [src_id] the first loop records no duplicate and maps
    every [src_id] to the identifier of its record. *)
Lemma index_event_fold_NoDup (evs : list Event.t)
  (I : list (option string * option string)) (D : list (option string)) :
  NoDup (dict_keys I ++ map src_id_of evs) →
  fold_left index_event evs (I, D)
  = (I ++ map (λ r, (src_id_of r, Event.id r)) evs, D).
Proof.
  revert I. induction evs as [|r evs IH]; intros I Hnd.
  - simpl. by rewrite app_nil_r.
  - cbn [fold_left map]. rewrite index_event_unfold.
    assert (Hg : dict_get (src_id_of r) I = None).
    { apply dict_get_None. intros Hin.
      apply NoDup_app in Hnd as (_ & Hdisj & _).
      apply (Hdisj _ Hin). left. }
    rewrite Hg, (dict_set_absent _ _ _ Hg), IH.
    + by rewrite <- app_assoc.
    + unfold dict_keys. rewrite map_app, <- app_assoc. exact Hnd.
Qed.

Lemma noop_steps (config : SyncConfig.t) (s s' : MemCalendar.t)
  (I I' : list (option string * option string)) (src : list Event.t) :
  sync_steps config s I src s' I' →
  NoDup (map Event.id src) →
  NoDup (dict_keys I) →
  (∀ e, e ∈ src →
     ∃ k, (Event.id e, Some k) ∈ I
          ∧ MemCalendar.records s !! k = Some (sync_details config e)) →
  (∀ key, key ∈ dict_keys I → key ∈ map Event.id src) →
  MemCalendar.records s' = MemCalendar.records s
  ∧ I' = []
  ∧ ∃ delta, MemCalendar.calls s' = MemCalendar.calls s ++ delta
             ∧ Forall (noop_update (MemCalendar.records s)) delta.
Proof.
  induction 1 as [s I|s I e s1 I1 src s2 I2 Hstep _ IH];
    intros Hids HndK Hrec Hkeys.
  - split; [done|]. split.
    + destruct I as [|[k v] I]; [done|].
      exfalso. eapply elem_of_nil, (Hkeys k). left.
    + exists []. by rewrite app_nil_r.
  - simpl in Hids. apply NoDup_cons in Hids as [Hid Hids].
    destruct (Hrec e) as (k0 & Hin0 & Hl0); [left|].
    pose proof (dict_get_NoDup _ _ _ HndK Hin0) as Hg0.
    destruct Hstep as [k Hg Hk | Hg Hb | Hg Hb]; [|congruence|congruence].
    rewrite Hg0 in Hg. injection Hg as <-.
    assert (Hsame : <[k0 := sync_details config e]> (MemCalendar.records s)
                    = MemCalendar.records s) by by apply insert_id.
    destruct IH as (Hrecs & -> & delta & Hcalls & Hnoop).
    + done.
    + by apply dict_remove_NoDup.
    + intros e' He'. destruct (Hrec e') as (k' & Hin' & Hl'); [by right|].
      exists k'. split.
      * apply dict_remove_other; [done|]. intros Heq. apply Hid.
        rewrite <- Heq. change map with (@fmap list _).
        by apply list_elem_of_fmap_2.
      * cbn [MemCalendar.records]. by rewrite Hsame.
    + intros key Hkey.
      assert (key ≠ Event.id e).
      { intros ->. by apply (dict_remove_gone I (Event.id e)) in Hkey. }
      assert (Hkey' : key ∈ dict_keys I).
      { change (dict_keys (dict_remove (Event.id e) I))
          with (fst <$> dict_remove (Event.id e) I) in Hkey.
        apply list_elem_of_fmap in Hkey as ([k1 v1] & -> & Hkey).
        apply dict_remove_elem in Hkey.
        by apply (list_elem_of_fmap_2 fst) in Hkey. }
      apply Hkeys in Hkey'. simpl in Hkey'.
      apply elem_of_cons in Hkey' as [?|?]; done.
    + cbn [MemCalendar.records MemCalendar.calls] in *.
      rewrite Hsame in Hrecs, Hnoop.
      split; [done|]. split; [done|].
      eexists (_ :: delta). split.
      * rewrite Hcalls, <- app_assoc. reflexivity.
      * constructor; [|done].
        exists (Event.of_details (Some k0) (sync_details config e)), k0.
        split; [done|]. split; [done|]. exact Hl0.
Qed.

(** A run on a reconciled destination deletes nothing, adds nothing, and
    writes back each record as it is. *)
Lemma reconciled_run_noop (src : list Event.t) (config : SyncConfig.t)
  (now_start now_end : datetime) (s : MemCalendar.t) :
  let f := sync_filter config now_start now_end in
  reconciled f config src (MemCalendar.records s) [] →
  NoDup (map Event.id src) →
  (∀ e, e ∈ src → passes f (sync_details config e)) →
  ∃ delta,
    sync_from src config now_start now_end s
    = (MemCalendar.mk (MemCalendar.records s) (MemCalendar.calls s ++ delta),
       inr tt)
    ∧ Forall (noop_update (MemCalendar.records s)) delta.
Proof.
  intros f (R1 & R2 & R3) Hids Hpass.
  destruct (sync_from_run src config now_start now_end s)
    as (I0 & D0 & s1 & I1 & Hidx & Hok & _ & Hsteps & Hok1 & Hrun).
  fold f in Hidx.
  set (evs := List.filter (EventFilter.call f) (MemCalendar.stored s)) in *.
  assert (Hstored : ∀ ev, ev ∈ evs ↔
            ∃ k d, ev = Event.of_details (Some k) d
                   ∧ MemCalendar.records s !! k = Some d ∧ passes f d).
  { intros ev. subst evs. rewrite elem_of_filter_stored.
    split; intros (k & d & -> & Hl & Hc); exists k, d;
      (split; [reflexivity|]; split; [exact Hl|]).
    - exact (proj1 (passes_of_details f (Some k) d) Hc).
    - exact (proj2 (passes_of_details f (Some k) d) Hc). }
  assert (Hnd : NoDup (map src_id_of evs)).
  { change map with (@fmap list _). apply NoDup_fmap_2_strong.
    - intros x y (k & d & -> & Hl & Hp)%Hstored
             (k' & d' & -> & Hl' & Hp')%Hstored Heq.
      rewrite !src_id_of_details in Heq.
      assert (k = k') as <-.
      { eapply R3; eauto; apply not_elem_of_nil. }
      congruence.
    - apply (NoDup_fmap_1 Event.id). subst evs.
      apply filter_map_NoDup, stored_ids_NoDup. }
  unfold index_events in Hidx.
  rewrite index_event_fold_NoDup in Hidx by done.
  injection Hidx as <- <-. simpl in *.
  destruct (noop_steps _ _ _ _ _ _ Hsteps Hids) as (Hrecs & -> & delta & Hc & Hn).
  - by destruct Hok as (? & _).
  - intros e He. destruct (R2 e He) as (k & Hl & _).
    exists k. split; [|done].
    change map with (@fmap list _).
    apply list_elem_of_fmap.
    exists (Event.of_details (Some k) (sync_details config e)).
    split.
    + by rewrite src_id_of_details, details_src_id_sync.
    + apply Hstored. exists k, (sync_details config e). auto.
  - intros key Hkey. unfold dict_keys in Hkey.
    rewrite map_map in Hkey. simpl in Hkey.
    change map with (@fmap list _) in *.
    apply list_elem_of_fmap in Hkey as (ev & -> & Hev).
    apply Hstored in Hev as (k & d & -> & Hl & Hp).
    destruct (R1 k d Hl Hp) as [Hin | (e & He & ->)].
    + by apply elem_of_nil in Hin.
    + rewrite src_id_of_details, details_src_id_sync.
      by apply list_elem_of_fmap_2.
  - exists delta. split; [|done].
    rewrite Hrun. simpl. unfold delete_ids. simpl.
    rewrite Hrecs, Hc, app_nil_r. reflexivity.
Qed.

(** ** The first run reconciles the destination *)

Lemma reconciled_insert (f : EventFilter.t) (config : SyncConfig.t)
  (done_ : list Event.t) (m : gmap string Details.t)
  (pending pending1 : list (option string)) (k : string) (e : Event.t) :
  reconciled f config done_ m pending →
  (∀ x, x ∈ pending1 → x ∈ pending) →
  (∀ x, x ∈ pending → x = Some k ∨ x ∈ pending1) →
  Some k ∉ pending1 →
  Some k ∈ pending ∨ m !! k = None →
  Event.id e ∉ map Event.id done_ →
  reconciled f config (done_ ++ [e]) (<[k := sync_details config e]> m)
             pending1.
Proof.
  intros (R1 & R2 & R3) Hsub Hsup Hk Hk' Hid.
  assert (Hout : ∀ k', k' ≠ k → Some k' ∉ pending1 → Some k' ∉ pending).
  { intros k' Hne Hn Hin. destruct (Hsup _ Hin) as [[=]|?]; done. }
  assert (Hclash : ∀ k' d', m !! k' = Some d' → Some k' ∉ pending →
            passes f d' →
            details_src_id (sync_details config e) ≠ details_src_id d').
  { intros k' d' Hl Hn Hp Heq.
    destruct (R1 k' d' Hl Hp) as [?|(e' & He' & ->)]; [done|].
    rewrite !details_src_id_sync in Heq. apply Hid. rewrite Heq.
    change map with (@fmap list _). by apply list_elem_of_fmap_2. }
  split; [|split].
  - intros k' d Hl Hp. destruct (decide (k' = k)) as [->|Hne].
    + rewrite lookup_insert_eq in Hl. injection Hl as <-.
      right. exists e. split; [|done]. apply elem_of_app. right. left.
    + rewrite lookup_insert_ne in Hl by done.
      destruct (R1 k' d Hl Hp) as [Hin|(e' & He' & ->)].
      * left. destruct (Hsup _ Hin) as [[=]|?]; done.
      * right. exists e'. split; [|done]. apply elem_of_app. by left.
  - intros e' [He'|He']%elem_of_app.
    + destruct (R2 e' He') as (k' & Hl & Hn).
      exists k'. split; [|by intros ?%Hsub].
      rewrite lookup_insert_ne; [done|]. intros <-.
      destruct Hk' as [?|Hnone]; [done | congruence].
    + apply list_elem_of_singleton in He' as ->.
      exists k. split; [apply lookup_insert_eq | done].
  - intros k1 k2 d1 d2 Hl1 Hl2 Hn1 Hn2 Hp1 Hp2 Heq.
    destruct (decide (k1 = k)) as [->|Hne1];
      destruct (decide (k2 = k)) as [->|Hne2]; [done | | |].
    + rewrite lookup_insert_eq in Hl1. injection Hl1 as <-.
      rewrite lookup_insert_ne in Hl2 by done.
      exfalso. eapply Hclash; eauto.
    + rewrite lookup_insert_eq in Hl2. injection Hl2 as <-.
      rewrite lookup_insert_ne in Hl1 by done.
      exfalso. eapply Hclash; eauto.
    + rewrite lookup_insert_ne in Hl1, Hl2 by done.
      eapply R3; eauto.
Qed.

Lemma reconciled_delete (f : EventFilter.t) (config : SyncConfig.t)
  (done_ : list Event.t) (m : gmap string Details.t)
  (pending : list (option string)) :
  reconciled f config done_ m pending →
  reconciled f config done_ (delete_ids pending m) [].
Proof.
  intros (R1 & R2 & R3).
  assert (Hl : ∀ k d, delete_ids pending m !! k = Some d →
                      m !! k = Some d ∧ Some k ∉ pending).
  { intros k d. rewrite lookup_delete_ids. by case_decide. }
  split; [|split].
  - intros k d [Hm Hn]%Hl Hp. destruct (R1 k d Hm Hp); [done | by right].
  - intros e He. destruct (R2 e He) as (k & Hm & Hn).
    exists k. split; [|apply not_elem_of_nil].
    rewrite lookup_delete_ids. by rewrite decide_False.
  - intros k k' d d' [Hm Hn]%Hl [Hm' Hn']%Hl _ _. eauto.
Qed.

Lemma reconciled_start (f : EventFilter.t) (config : SyncConfig.t)
  (s : MemCalendar.t)
  (I0 : list (option string * option string)) (D0 : list (option string)) :
  index_events (List.filter (EventFilter.call f) (MemCalendar.stored s))
  = (I0, D0) →
  reconciled f config [] (MemCalendar.records s) (dict_values I0 ++ D0).
Proof.
  intros Hidx. unfold index_events in Hidx.
  destruct (index_event_fold
              (List.filter (EventFilter.call f) (MemCalendar.stored s))
              [] [] NoDup_nil_2)
    as (I' & D' & Hf & _ & Hperm & _).
  rewrite Hidx in Hf. injection Hf as <- <-. simpl in Hperm.
  assert (Hpend : ∀ k d, MemCalendar.records s !! k = Some d → passes f d →
                         Some k ∈ dict_values I0 ++ D0).
  { intros k d Hl Hp. rewrite Hperm.
    change map with (@fmap list _).
    apply (list_elem_of_fmap_2 Event.id _ (Event.of_details (Some k) d)).
    apply elem_of_filter_stored. exists k, d. done. }
  split; [|split].
  - intros k d Hl Hp. left. eauto.
  - intros e He. by apply elem_of_nil in He.
  - intros k k' d d' Hl _ Hn _ Hp. exfalso. eauto.
Qed.

Lemma count_writes_app (a b : list MemCalendar.call) :
  count_writes (a ++ b) = (count_writes a + count_writes b)%nat.
Proof. unfold count_writes. by rewrite List.filter_app, List.length_app. Qed.

Lemma count_writes_snoc (calls : list MemCalendar.call)
  (c : MemCalendar.call) :
  is_write c = true →
  count_writes (calls ++ [c]) = S (count_writes calls).
Proof.
  intros Hc. rewrite count_writes_app. unfold count_writes at 2.
  simpl. rewrite Hc. simpl. lia.
Qed.

Lemma count_writes_deletes (L : list (option string)) :
  count_writes (map MemCalendar.DeleteEvent L) = 0%nat.
Proof. induction L; done. Qed.

Lemma sync_steps_count (config : SyncConfig.t) (s s' : MemCalendar.t)
  (I I' : list (option string * option string)) (src : list Event.t) :
  sync_steps config s I src s' I' →
  (count_writes (MemCalendar.calls s')
   ≤ count_writes (MemCalendar.calls s) + length src)%nat.
Proof.
  intros (delta & -> & _ & Hlen)%sync_steps_calls.
  rewrite count_writes_app.
  assert (count_writes delta ≤ length delta)%nat
    by apply List.filter_length_le.
  lia.
Qed.

(** When the second loop writes once for every source event (no insertion
    is skipped), each source event ends up with a record that holds its
    computed fields. *)
Lemma sync_steps_reconcile (f : EventFilter.t) (config : SyncConfig.t)
  (D : list (option string)) (s s' : MemCalendar.t)
  (I I' : list (option string * option string)) (src : list Event.t) :
  sync_steps config s I src s' I' →
  ∀ done_,
    index_ok s I D →
    NoDup (map Event.id (done_ ++ src)) →
    count_writes (MemCalendar.calls s')
    = (count_writes (MemCalendar.calls s) + length src)%nat →
    reconciled f config done_ (MemCalendar.records s) (dict_values I ++ D) →
    reconciled f config (done_ ++ src) (MemCalendar.records s')
               (dict_values I' ++ D).
Proof.
  induction 1 as [s I|s I e s1 I1 src s2 I2 Hstep Hsteps IH];
    intros done_ Hok Hids Hcount Hrec.
  - by rewrite app_nil_r.
  - pose proof (sync_steps_count _ _ _ _ _ _ Hsteps) as Hle.
    pose proof (sync_step_index_ok _ _ _ _ _ _ _ Hok Hstep) as Hok1.
    assert (Hid : Event.id e ∉ map Event.id done_).
    { rewrite map_app in Hids. apply NoDup_app in Hids as (_ & Hdisj & _).
      intros Hin. apply (Hdisj _ Hin). left. }
    replace (done_ ++ e :: src) with ((done_ ++ [e]) ++ src) in *
      by (by rewrite <- app_assoc).
    simpl in Hcount.
    destruct Hstep as [k Hg Hk | Hg Hb | Hg Hb];
      cbn [MemCalendar.calls MemCalendar.records] in *.
    + apply IH; [done | done | |].
      * rewrite count_writes_snoc in Hle |- * by done. lia.
      * pose proof (dict_values_remove_perm _ _ _ Hg) as Hperm.
        destruct Hok as (_ & HndV & _).
        eapply reconciled_insert; [exact Hrec | | | | | done].
        -- intros x Hx. rewrite Hperm. by right.
        -- intros x Hx. rewrite Hperm in Hx. simpl in Hx.
           apply elem_of_cons in Hx as [?|?]; auto.
        -- rewrite Hperm in HndV. simpl in HndV.
           by apply NoDup_cons in HndV as [? _].
        -- left. rewrite Hperm. left.
    + lia.
    + apply IH; [done | done | |].
      * rewrite count_writes_snoc in Hle |- * by done. lia.
      * eapply reconciled_insert; [exact Hrec | | | | | done]; auto.
        -- eapply index_ok_fresh; eauto.
        -- right. apply not_elem_of_dom, is_fresh.
Qed.

Lemma passes_sync_details (config : SyncConfig.t)
  (now_start now_end : datetime) (e : Event.t) :
  instant (window_start config now_start) ≤ instant (patch_start config e) →
  instant (patch_end config e) ≤ instant (window_end config now_end) →
  passes (sync_filter config now_start now_end) (sync_details config e).
Proof.
  intros Hs He. unfold passes. apply sync_filter_call.
  split; [exact Hs|]. split; [exact He|]. right.
  unfold Event.metadata_get.
  change (Event.metadata (Event.of_details None (sync_details config e)))
    with (sync_metadata config e).
  rewrite sync_metadata_lookup. by rewrite decide_True.
Qed.

Lemma noop_update_not_add_delete (m : gmap string Details.t)
  (delta : list MemCalendar.call) :
  Forall (noop_update m) delta →
  forallb (λ c, negb (is_add c) && negb (is_delete c)) delta = true.
Proof.
  induction 1 as [|c delta (ev & k & -> & _) _ IH]; [done|].
  simpl. exact IH.
Qed.

(** C1, as the code has it: when the source events have pairwise distinct
    identifiers, their computed start and end lie in the sync window, and
    the first run wrote once (an [add_event] or an [update_event]) for each
    of them, so that no insertion was skipped by the [has_event] guard, a
    second run with the same source, config and clock leaves the
    destination records as the first run left them, calls neither
    [add_event] nor [delete_event], and each [update_event] it makes writes
    a record back as it is. *)
Theorem C1_second_run_is_noop (src : list Event.t) (config : SyncConfig.t)
  (now_start now_end : datetime) (s0 s1 : MemCalendar.t) :
  NoDup (map Event.id src) →
  (∀ e, e ∈ src →
     instant (window_start config now_start) ≤ instant (patch_start config e)
     ∧ instant (patch_end config e) ≤ instant (window_end config now_end)) →
  sync_from src config now_start now_end s0 = (s1, inr tt) →
  count_writes (MemCalendar.calls s1)
  = (count_writes (MemCalendar.calls s0) + length src)%nat →
  ∃ delta,
    sync_from src config now_start now_end s1
    = (MemCalendar.mk (MemCalendar.records s1)
                      (MemCalendar.calls s1 ++ delta),
       inr tt)
    ∧ Forall (noop_update (MemCalendar.records s1)) delta
    ∧ forallb (λ c, negb (is_add c) && negb (is_delete c)) delta = true.
Proof.
  intros Hids Hwin Hrun1 Hcount.
  destruct (sync_from_run src config now_start now_end s0)
    as (I0 & D0 & sl & I1 & Hidx & Hok & _ & Hsteps & Hok1 & Hrun).
  rewrite Hrun in Hrun1. injection Hrun1 as <-.
  cbn [MemCalendar.calls MemCalendar.records] in *.
  rewrite count_writes_app, count_writes_deletes, Nat.add_0_r in Hcount.
  pose proof (reconciled_start _ config _ _ _ Hidx) as Hrec0.
  pose proof (sync_steps_reconcile _ _ _ _ _ _ _ _ Hsteps [] Hok Hids
                Hcount Hrec0) as Hrec1.
  apply reconciled_delete in Hrec1. simpl in Hrec1.
  destruct (reconciled_run_noop src config now_start now_end
              (MemCalendar.mk
                 (delete_ids (dict_values I1 ++ D0) (MemCalendar.records sl))
                 (MemCalendar.calls sl
                  ++ map MemCalendar.DeleteEvent (dict_values I1 ++ D0))))
    as (delta & Hrun2 & Hnoop).
  - exact Hrec1.
  - exact Hids.
  - intros e He. destruct (Hwin e He). by apply passes_sync_details.
  - exists delta. split; [exact Hrun2|]. split; [exact Hnoop|].
    by eapply noop_update_not_add_delete.
Qed.

(** Scenario 2 of the specification: scenario 1 run again, unchanged. *)
Lemma C1_second_run_is_noop_witness :
  ∃ delta,
    sync_from [standup] cfg_work jan1 jan1 standup_run1
    = (MemCalendar.mk (MemCalendar.records standup_run1)
                      (MemCalendar.calls standup_run1 ++ delta),
       inr tt)
    ∧ Forall (noop_update (MemCalendar.records standup_run1)) delta
    ∧ forallb (λ c, negb (is_add c) && negb (is_delete c)) delta = true.
Proof.
  apply (C1_second_run_is_noop [standup] cfg_work jan1 jan1 empty_store).
  - apply NoDup_singleton.
  - intros e ->%list_elem_of_singleton. split; vm_compute; congruence.
  - vm_compute. reflexivity.
  - vm_compute. reflexivity.
Defined.

(** C1 as stated fails: a source event outside the sync window that runs
    past midnight is neither indexed nor found by [has_event] in the second
    run, which adds it a second time. *)
Lemma C1_second_run_adds_again :
  sync_from [deploy] cfg_work jan1 jan1 empty_store = (deploy_run1, inr tt)
  ∧ sync_from [deploy] cfg_work jan1 jan1 deploy_run1 = (deploy_run2, inr tt)
  ∧ size (MemCalendar.records deploy_run1) = 1%nat
  ∧ size (MemCalendar.records deploy_run2) = 2%nat
  ∧ MemCalendar.calls deploy_run2
    = MemCalendar.calls deploy_run1
      ++ [MemCalendar.AddEvent
            (Event.of_details (Some "1") (sync_details cfg_work deploy))].
Proof. repeat split; vm_compute; reflexivity. Qed.

(** ** The scenarios of the specification, run *)

Example ymd2ord_2024_03_01 : Calendrical.ymd2ord 2024 3 1 = 738946.
Proof. reflexivity. Qed.

Example ord2ymd_2024_03_01 : Calendrical.ord2ymd 738946 = (2024, 3, 1).
Proof. reflexivity. Qed.

Example ord2ymd_last_day_of_leap_year :
  Calendrical.ord2ymd (Calendrical.ymd2ord 2024 12 31) = (2024, 12, 31).
Proof. reflexivity. Qed.

Example ord2ymd_leap_day :
  Calendrical.ord2ymd (Calendrical.ymd2ord 2024 2 29) = (2024, 2, 29).
Proof. reflexivity. Qed.

Example datetime_add_over_new_year :
  datetime_add (utc_plus1 2023 12 31 23 30 0) (mk_timedelta 0 3600 0)
  = utc_plus1 2024 1 1 0 30 0.
Proof. reflexivity. Qed.

Example datetime_eq_across_zones :
  datetime_eq (utc_plus1 2024 3 1 10 0 0) (utc 2024 3 1 9 0) = true.
Proof. reflexivity. Qed.

Example monday_event_is_on_monday :
  Weekday_of_datetime (Event.start monday_event) = monday
  ∧ datetime_weekday (Event.start monday_event) = 0.
Proof. split; reflexivity. Qed.

(** A filter whose provenance tag is the empty string constrains nothing. *)
Example empty_tag_passes_untagged :
  EventFilter.call (EventFilter.mk (Some EmptyString) None None None) monday_event
  = true.
Proof. reflexivity. Qed.

(** Scenario 1: the destination gains one record, tagged with the source. *)
Example scenario_1 :
  map_to_list (MemCalendar.records standup_run1)
  = [("0", Details.mk "Standup" (utc 2024 1 2 9 0) (utc 2024 1 2 9 15)
                      false EmptyString (tagged "work" "abc"))].
Proof. vm_compute. reflexivity. Qed.

(** Scenario 3: scenario 1 followed by a run on an empty source deletes the
    record. *)
Example scenario_3 :
  ∃ calls,
    sync_from [] cfg_work jan1 jan1 standup_run1
    = (MemCalendar.mk ∅ calls, inr tt)
    ∧ last calls = Some (MemCalendar.DeleteEvent (Some "0")).
Proof. eexists. split; vm_compute; reflexivity. Qed.

(** Scenario 5: one of the two records is matched and updated, the other is
    deleted, and one record is left for ["dup1"]. *)
Example scenario_5 :
  ∃ s',
    sync_from [sync_meeting] cfg_work jan1 jan1 store_with_duplicates
    = (s', inr tt)
    ∧ map_to_list (MemCalendar.records s')
      = [("d1", dup_details "Sync")]
    ∧ MemCalendar.calls s'
      = [MemCalendar.UpdateEvent
           (Event.of_details (Some "d1") (dup_details "Sync"));
         MemCalendar.DeleteEvent (Some "d2")].
Proof. eexists. split; [reflexivity|]. split; vm_compute; reflexivity. Qed.

(** * Further properties of the code *)

(** ** has_event on a store that filters its contents *)

Lemma matches_refl (e : Event.t) : Event.matches e e = true.
Proof. apply matches_same_triple. by repeat split. Qed.

Section has_event_more.
Context {S : Type} `{Calendar S}.
Variable contents : S → list Event.t.
Hypothesis events_filtered : ∀ f s,
  events (Some f) s = (s, inr (List.filter (EventFilter.call f) (contents s))).

(** X1: [has_event] never reports an event whose end is later than 23:59:00
    of the day of its start, whatever the store holds, be it the event
    itself: its filter only lets through events that end by 23:59:00, and a
    match must end when the searched event ends. *)
Theorem has_event_false_when_end_after_2359 (s : S) (search : Event.t) :
  instant (day_end (Event.start search)) < instant (Event.end_ search) →
  has_event search s = (s, inr false).
Proof.
  intros Hlate. unfold has_event, bind. rewrite events_filtered.
  unfold ret. f_equal. f_equal. apply not_true_is_false. intros Hex.
  apply existsb_exists in Hex as (e & [_ Hday]%filter_In & Hm).
  apply day_filter_call in Hday as [_ Hend].
  apply matches_same_triple in Hm as (_ & _ & Heq). lia.
Qed.

(** X2: [has_event] reports every event that the store holds and that
    starts and ends within 00:00 and 23:59:00 of the day of its start. *)
Theorem has_event_true_for_stored_day_event (s : S) (search : Event.t) :
  In search (contents s) →
  on_day_of (Event.start search) search →
  has_event search s = (s, inr true).
Proof.
  intros Hin Hday. unfold has_event, bind. rewrite events_filtered.
  unfold ret. f_equal. f_equal. apply existsb_exists. exists search.
  split; [|apply matches_refl].
  apply filter_In. split; [done|]. by apply day_filter_call.
Qed.

End has_event_more.

Lemma has_event_false_when_end_after_2359_witness :
  In deploy (dict_values (StaticCalendar._events static_deploy))
  ∧ has_event deploy static_deploy = (static_deploy, inr false).
Proof.
  split; [by left|].
  apply (has_event_false_when_end_after_2359
           (λ s, dict_values (StaticCalendar._events s))).
  - intros f s. reflexivity.
  - vm_compute. reflexivity.
Defined.

Lemma has_event_true_for_stored_day_event_witness :
  has_event monday_event static_week = (static_week, inr true).
Proof.
  apply (has_event_true_for_stored_day_event
           (λ s, dict_values (StaticCalendar._events s))).
  - intros f s. reflexivity.
  - by left.
  - split; vm_compute; congruence.
Defined.

(** ** Dictionaries, continued *)

Section pydict_set_facts.
Context {K V : Type} `{EqDecision K}.
Implicit Types (d : list (K * V)) (k : K) (v : V).

Lemma dict_get_set d k k' v :
  dict_get k' (dict_set k v d)
  = if decide (k' = k) then Some v else dict_get k' d.
Proof.
  induction d as [|[k0 v0] d IH]; simpl.
  - by repeat case_decide.
  - destruct (decide (k = k0)) as [->|Hne]; simpl.
    + by repeat case_decide.
    + rewrite IH. repeat case_decide; congruence.
Qed.

Lemma dict_keys_set d k v :
  dict_keys (dict_set k v d)
  = if decide (k ∈ dict_keys d) then dict_keys d else dict_keys d ++ [k].
Proof.
  unfold dict_keys.
  induction d as [|[k0 v0] d IH]; cbn [dict_set map fst].
  - rewrite decide_False; [done | apply not_elem_of_nil].
  - destruct (decide (k = k0)) as [->|Hne]; cbn [map fst].
    + rewrite decide_True; [done | left].
    + rewrite IH. destruct (decide (k ∈ map fst d)) as [Hin|Hnin].
      * rewrite decide_True; [done | by right].
      * rewrite decide_False; [done|].
        rewrite not_elem_of_cons. done.
Qed.

Lemma dict_set_NoDup d k v :
  NoDup (dict_keys d) → NoDup (dict_keys (dict_set k v d)).
Proof.
  intros Hnd. rewrite dict_keys_set. case_decide; [done|].
  apply NoDup_app. repeat split; [done | | apply NoDup_singleton].
  intros x Hx ->%list_elem_of_singleton. done.
Qed.

Lemma dict_set_elem d k v k' v' :
  (k', v') ∈ dict_set k v d → (k' = k ∧ v' = v) ∨ (k', v') ∈ d.
Proof.
  induction d as [|[k0 v0] d IH]; simpl.
  - intros [= -> ->]%list_elem_of_singleton. by left.
  - destruct (decide (k = k0)) as [->|Hne].
    + intros [[= -> ->]|Hin]%elem_of_cons; [by left | right; by right].
    + intros [[= -> ->]|Hin]%elem_of_cons; [right; left|].
      destruct (IH Hin); [by left | right; by right].
Qed.

End pydict_set_facts.

(** ** StaticCalendar: what the constructor keeps *)

Lemma static_fold_get_other (evs : list Event.t)
  (d : list (option string * Event.t)) (k : option string) :
  k ∉ map Event.id evs →
  dict_get k (fold_left (λ d event, dict_set (Event.id event) event d) evs d)
  = dict_get k d.
Proof.
  revert d. induction evs as [|e evs IH]; intros d Hk; [done|].
  simpl in Hk. apply not_elem_of_cons in Hk as [Hne Hk].
  cbn [fold_left]. rewrite IH by done.
  rewrite dict_get_set. by rewrite decide_False.
Qed.

Lemma static_fold_get_last (pre post : list Event.t) (e : Event.t)
  (d : list (option string * Event.t)) :
  Event.id e ∉ map Event.id post →
  dict_get (Event.id e)
    (fold_left (λ d event, dict_set (Event.id event) event d)
               (pre ++ e :: post) d)
  = Some e.
Proof.
  intros Hpost. rewrite fold_left_app. cbn [fold_left].
  rewrite static_fold_get_other by done.
  rewrite dict_get_set. by rewrite decide_True.
Qed.

Lemma static_fold_inv (evs : list Event.t)
  (d : list (option string * Event.t)) :
  NoDup (dict_keys d) →
  (∀ k e, (k, e) ∈ d → Event.id e = k) →
  NoDup (dict_keys
           (fold_left (λ d event, dict_set (Event.id event) event d) evs d))
  ∧ ∀ k e,
      (k, e) ∈ fold_left (λ d event, dict_set (Event.id event) event d) evs d →
      Event.id e = k ∧ (e ∈ evs ∨ (k, e) ∈ d).
Proof.
  revert d. induction evs as [|e0 evs IH]; intros d Hnd Hid.
  - split; [done|]. intros k e Hin. split; [by apply Hid | by right].
  - cbn [fold_left].
    destruct (IH (dict_set (Event.id e0) e0 d)) as [Hnd' Hin'].
    + by apply dict_set_NoDup.
    + intros k e [[-> ->]|Hin]%dict_set_elem; [done | by apply Hid].
    + split; [done|]. intros k e Hin.
      destruct (Hin' k e Hin) as [Heq [He|Hd]].
      * split; [done|]. left. by right.
      * split; [done|].
        apply dict_set_elem in Hd as [[-> ->]|Hd]; [left; left | by right].
Qed.

Lemma static_fold_NoDup (evs : list Event.t)
  (d : list (option string * Event.t)) :
  NoDup (dict_keys d ++ map Event.id evs) →
  fold_left (λ d event, dict_set (Event.id event) event d) evs d
  = d ++ map (λ e, (Event.id e, e)) evs.
Proof.
  revert d. induction evs as [|e evs IH]; intros d Hnd.
  - simpl. by rewrite app_nil_r.
  - cbn [fold_left map].
    assert (Hg : dict_get (Event.id e) d = None).
    { apply dict_get_None. intros Hin.
      apply NoDup_app in Hnd as (_ & Hdisj & _). apply (Hdisj _ Hin). left. }
    rewrite (dict_set_absent _ _ _ Hg), IH.
    + by rewrite <- app_assoc.
    + unfold dict_keys. rewrite map_app, <- app_assoc. exact Hnd.
Qed.

Lemma filter_all {A} (p : A → bool) (l : list A) :
  (∀ x, In x l → p x = true) → List.filter p l = l.
Proof.
  induction l as [|x l IH]; simpl; [done|]. intros Hp.
  rewrite (Hp x) by auto. f_equal. auto.
Qed.

(** X3: [get_event] on a StaticCalendar returns, for an identifier carried
    by several of the events it was built from, the last of them: a later
    event replaces an earlier one with the same identifier. *)
Theorem static_get_event_last_wins (name : string) (pre post : list Event.t)
  (e : Event.t) :
  Event.id e ∉ map Event.id post →
  get_event (Event.id e) (StaticCalendar.init name (pre ++ e :: post))
  = (StaticCalendar.init name (pre ++ e :: post), inr e).
Proof.
  intros Hpost. cbn [get_event StaticCalendar.calendar].
  unfold StaticCalendar.get_event_, StaticCalendar.init.
  cbn [StaticCalendar._events].
  by rewrite static_fold_get_last.
Qed.

Lemma static_get_event_last_wins_witness :
  get_event (Some "abc") static_versions = (static_versions, inr standup_moved).
Proof.
  apply (static_get_event_last_wins "team" [standup; monday_event] []
           standup_moved).
  apply not_elem_of_nil.
Defined.

(** X4: [get_event] on a StaticCalendar raises [KeyError] for an identifier
    that none of the events it was built from carries, and leaves the
    calendar as it was. *)
Theorem static_get_event_missing (name : string) (evs : list Event.t)
  (k : option string) :
  k ∉ map Event.id evs →
  get_event k (StaticCalendar.init name evs)
  = (StaticCalendar.init name evs, inl (KeyError k)).
Proof.
  intros Hk. cbn [get_event StaticCalendar.calendar].
  unfold StaticCalendar.get_event_, StaticCalendar.init.
  cbn [StaticCalendar._events].
  by rewrite static_fold_get_other.
Qed.

Lemma static_get_event_missing_witness :
  get_event (Some "zzz") static_versions
  = (static_versions, inl (KeyError (Some "zzz"))).
Proof.
  apply (static_get_event_missing "team"
           [standup; monday_event; standup_moved]).
  cbn [map Event.id standup monday_event standup_moved].
  rewrite !not_elem_of_cons. repeat split; try congruence.
  apply not_elem_of_nil.
Defined.

(** X5: a StaticCalendar built from events with pairwise distinct
    identifiers yields, without a filter, exactly those events in the order
    they were given. *)
Theorem static_events_all_in_order (name : string) (evs : list Event.t) :
  NoDup (map Event.id evs) →
  events None (StaticCalendar.init name evs)
  = (StaticCalendar.init name evs, inr evs).
Proof.
  intros Hnd. cbn [events StaticCalendar.calendar].
  unfold StaticCalendar.events_, StaticCalendar.init.
  cbn [StaticCalendar._events default].
  rewrite static_fold_NoDup by done. cbn [app].
  unfold dict_values. rewrite map_map. cbn [snd]. rewrite map_id.
  rewrite filter_all; [done|]. intros x _. apply call_default.
Qed.

Lemma static_events_all_in_order_witness :
  events None static_week = (static_week, inr [monday_event; review_0800]).
Proof.
  apply (static_events_all_in_order "week" [monday_event; review_0800]).
  cbn [map Event.id monday_event review_0800].
  apply NoDup_cons. split; [|apply NoDup_singleton].
  intros [=]%list_elem_of_singleton.
Defined.

(** X6: whatever events a StaticCalendar is built from and whatever the
    filter, [events] never yields two events with the same identifier, and
    yields only events it was built from that pass the filter. *)
Theorem static_events_unique_ids (name : string) (evs : list Event.t)
  (f : option EventFilter.t) :
  ∃ l,
    events f (StaticCalendar.init name evs)
    = (StaticCalendar.init name evs, inr l)
    ∧ NoDup (map Event.id l)
    ∧ ∀ e, e ∈ l →
           e ∈ evs ∧ EventFilter.call (default EventFilter.default f) e = true.
Proof.
  eexists. split; [reflexivity|].
  unfold StaticCalendar.init. cbn [StaticCalendar._events].
  destruct (static_fold_inv evs [] (NoDup_nil_2)) as [Hnd Hin].
  { intros k e Hk. by apply elem_of_nil in Hk. }
  set (d := fold_left _ evs []) in *.
  assert (Hids : map Event.id (dict_values d) = dict_keys d).
  { unfold dict_values, dict_keys. rewrite map_map.
    apply map_ext_in. intros [k e] Hke%list_elem_of_In. simpl.
    by destruct (Hin k e Hke). }
  split.
  - apply filter_map_NoDup. by rewrite Hids.
  - intros e [He Hc]%list_elem_of_In%filter_In. split; [|done].
    apply list_elem_of_In in He.
    change (dict_values d) with (snd <$> d) in He.
    apply list_elem_of_fmap in He as ([k e'] & -> & Hke).
    destruct (Hin k e' Hke) as [_ [?|Hnil]]; [done|].
    by apply elem_of_nil in Hnil.
Qed.

(** ** sync_from on a writable store: what it writes and what it leaves *)












(** ** sync_from into a StaticCalendar *)




(** ** The Google adapter: descriptions, metadata and dates *)

Lemma append_cons (c : ascii) (s t : string) :
  String c s +:+ t = String c (s +:+ t).
Proof. reflexivity. Qed.

Lemma append_nil_l (t : string) : EmptyString +:+ t = t.
Proof. reflexivity. Qed.

Lemma append_nil_r (s : string) : s +:+ EmptyString = s.
Proof.
  induction s as [|c s IH]; [done|]. by rewrite append_cons, IH.
Qed.

Lemma append_assoc (a b c : string) : (a +:+ b) +:+ c = a +:+ (b +:+ c).
Proof.
  induction a as [|x a IH]; [done|]. by rewrite !append_cons, IH.
Qed.

Lemma split_lines_nonempty (s : string) : Google.split_lines s ≠ [].
Proof.
  destruct s as [|c s]; simpl; [done|].
  destruct (Ascii.eqb c Google.NEWLINE); [done|].
  by destruct (Google.split_lines s).
Qed.

(** Splitting distributes over a newline. *)
Lemma split_lines_app (a b : string) :
  Google.split_lines (a +:+ String Google.NEWLINE b)
  = Google.split_lines a ++ Google.split_lines b.
Proof.
  induction a as [|c a IH]; rewrite ?append_cons, ?append_nil_l; simpl.
  - done.
  - destruct (Ascii.eqb c Google.NEWLINE); rewrite IH; [done|].
    pose proof (split_lines_nonempty a).
    by destruct (Google.split_lines a).
Qed.

Lemma join_split_lines (s : string) :
  Google.join_lines (Google.split_lines s) = s.
Proof.
  induction s as [|c s IH]; simpl; [done|].
  destruct (Ascii.eqb_spec c Google.NEWLINE) as [->|Hne].
  - pose proof (split_lines_nonempty s).
    cbn [Google.join_lines]. destruct (Google.split_lines s) as [|l ls];
      [done|]. simpl in *. by rewrite IH.
  - pose proof (split_lines_nonempty s).
    destruct (Google.split_lines s) as [|l ls]; [done|].
    destruct ls as [|l' ls]; simpl in *; by rewrite <- IH.
Qed.

Lemma rstrip_app_space (s : string) (c : ascii) :
  Google.is_space c = true →
  Google.rstrip (s +:+ String c EmptyString) = Google.rstrip s.
Proof.
  intros Hc.
  induction s as [|a s IH]; rewrite ?append_cons, ?append_nil_l; simpl.
  - by rewrite Hc.
  - by rewrite IH.
Qed.

Section google_facts.
Context `{Google.Library}.

(** The lines before the first header line are accumulated, each with its
    newline. *)
Lemma read_description_skip (lines rest : list string) (acc : string) :
  Forall (λ l, l ≠ Google.METADATA_HEADER) lines →
  Google.read_description (lines ++ rest) acc
  = Google.read_description rest
      (acc +:+ foldr (λ l r, l +:+ String Google.NEWLINE r) EmptyString lines).
Proof.
  intros Hlines. revert acc.
  induction Hlines as [|l lines Hl _ IH]; intros acc; simpl.
  - by rewrite append_nil_r.
  - apply String.eqb_neq in Hl. rewrite Hl, IH.
    by rewrite !append_assoc.
Qed.

Lemma foldr_split_lines (s : string) :
  foldr (λ l r, l +:+ String Google.NEWLINE r) EmptyString
        (Google.split_lines s)
  = s +:+ String Google.NEWLINE EmptyString.
Proof.
  induction s as [|c s IH]; simpl; [done|].
  destruct (Ascii.eqb_spec c Google.NEWLINE) as [->|Hne].
  - cbn [foldr]. by rewrite IH.
  - pose proof (split_lines_nonempty s).
    destruct (Google.split_lines s) as [|l ls]; [done|].
    cbn [foldr] in *. by rewrite !append_cons, IH.
Qed.

(** What [from_body] reads back from the description that [encode] wrote. *)
Lemma read_description_encode (e : Event.t) :
  Forall (λ l, l ≠ Google.METADATA_HEADER)
         (Google.split_lines (Event.description e)) →
  (Event.metadata e ≠ ∅ →
   Google.json_loads (Google.json_dumps (Event.metadata e))
   = Some (Event.metadata e)) →
  Google.read_description
    (Google.split_lines
       (default EmptyString (Google.b_description (Google.encode e))))
    EmptyString
  = inr (Event.description e +:+ String Google.NEWLINE EmptyString,
         Event.metadata e).
Proof.
  intros Hdesc Hjson. unfold Google.encode.
  destruct (Google._encode_date _ _ _) as [ds de].
  cbn [Google.b_description default from_option]. unfold id.
  unfold Google.metadata_truthy.
  destruct (decide (Event.metadata e = ∅)) as [Hempty|Hne].
  - rewrite bool_decide_eq_true_2 by done. cbn [negb].
    rewrite <- (app_nil_r (Google.split_lines _)).
    rewrite read_description_skip by done.
    cbn [Google.read_description]. rewrite foldr_split_lines.
    by rewrite Hempty.
  - rewrite bool_decide_eq_false_2 by done. cbn [negb].
    rewrite !(append_cons Google.NEWLINE), !append_nil_l.
    rewrite split_lines_app, read_description_skip by done.
    rewrite foldr_split_lines, split_lines_app.
    change (Google.split_lines Google.METADATA_HEADER)
      with [Google.METADATA_HEADER].
    cbn [app Google.read_description].
    rewrite String.eqb_refl, join_split_lines, Hjson by done.
    reflexivity.
Qed.

(** X12: an event that is not all-day survives [encode] followed by
    [from_body] (on the body as stored under an identifier) with its title,
    start, end and metadata, and with its description stripped of trailing
    whitespace, provided that no line of the description is the metadata
    header and that the library reads back what it wrote (the two ISO
    strings, and the JSON text when there is metadata). *)
Theorem from_body_encode_timed (e : Event.t) (k : string) :
  Event.all_day e = false →
  Forall (λ l, l ≠ Google.METADATA_HEADER)
         (Google.split_lines (Event.description e)) →
  (Event.metadata e ≠ ∅ →
   Google.json_loads (Google.json_dumps (Event.metadata e))
   = Some (Event.metadata e)) →
  Google.fromisoformat (Google.isoformat (Event.start e))
  = Some (Event.start e) →
  Google.fromisoformat (Google.isoformat (Event.end_ e))
  = Some (Event.end_ e) →
  Google.from_body (Google.stored_as k (Google.encode e))
  = inr (Event.mk (Some k) (Event.title e) (Event.start e) (Event.end_ e)
                  false (Google.rstrip (Event.description e))
                  (Event.metadata e)).
Proof.
  intros Hall Hdesc Hjson Hstart Hend.
  pose proof (read_description_encode e Hdesc Hjson) as Hread.
  unfold Google.from_body, Google.stored_as.
  cbn [Google.b_description Google.b_start Google.b_end Google.b_id
       Google.b_summary].
  rewrite Hread. unfold Google.encode, Google._encode_date. rewrite Hall.
  cbn [Google.b_start Google.b_end Google.b_summary].
  unfold Google._decode_date. cbn [Google.dateTime].
  rewrite Hstart, Hend.
  by rewrite rstrip_app_space.
Qed.

(** X13: an all-day event comes back from [encode] followed by [from_body]
    with its start and end moved to midnight of their dates in the local
    timezone of the machine, whatever time of day and timezone they had,
    provided the library reads the date strings back. *)
Theorem from_body_encode_all_day (e : Event.t) (k : string)
  (ds de : datetime) :
  Event.all_day e = true →
  Forall (λ l, l ≠ Google.METADATA_HEADER)
         (Google.split_lines (Event.description e)) →
  (Event.metadata e ≠ ∅ →
   Google.json_loads (Google.json_dumps (Event.metadata e))
   = Some (Event.metadata e)) →
  Google.fromisoformat (Google.strftime_ymd (Event.start e)) = Some ds →
  Google.fromisoformat (Google.strftime_ymd (Event.end_ e)) = Some de →
  Google.from_body (Google.stored_as k (Google.encode e))
  = inr (Event.mk (Some k) (Event.title e)
           (mk_datetime (year ds) (month ds) (day ds) 0 0 0 0
                        Google.LOCAL_TIMEZONE)
           (mk_datetime (year de) (month de) (day de) 0 0 0 0
                        Google.LOCAL_TIMEZONE)
           true (Google.rstrip (Event.description e)) (Event.metadata e)).
Proof.
  intros Hall Hdesc Hjson Hstart Hend.
  pose proof (read_description_encode e Hdesc Hjson) as Hread.
  unfold Google.from_body, Google.stored_as.
  cbn [Google.b_description Google.b_start Google.b_end Google.b_id
       Google.b_summary].
  rewrite Hread. unfold Google.encode, Google._encode_date. rewrite Hall.
  cbn [Google.b_start Google.b_end Google.b_summary].
  unfold Google._decode_date. cbn [Google.dateTime Google.date].
  rewrite Hstart, Hend.
  by rewrite rstrip_app_space.
Qed.

(** X14: [from_body] cuts the description of a body at its first header
    line: the text before that line, stripped of trailing whitespace, is the
    description, and everything after it is handed to [json.loads] as the
    metadata, so that a header line inside a description makes the rest of
    the description metadata, and makes [from_body] raise when that rest is
    not JSON. *)
Theorem from_body_cuts_at_first_header (b : Google.body) (before after
  : string) (data_start data_end : Google.date_dict)
  (start end_ : datetime) (all_day all_day' : bool) (key summary : string) :
  Google.b_description b
  = Some (before +:+ String Google.NEWLINE
            (Google.METADATA_HEADER +:+ String Google.NEWLINE after)) →
  Forall (λ l, l ≠ Google.METADATA_HEADER) (Google.split_lines before) →
  Google.b_start b = Some data_start →
  Google._decode_date data_start = inr (start, all_day) →
  Google.b_end b = Some data_end →
  Google._decode_date data_end = inr (end_, all_day') →
  Google.b_id b = Some key →
  Google.b_summary b = Some summary →
  Google.from_body b
  = match Google.json_loads after with
    | Some metadata =>
        inr (Event.mk (Some key) summary start end_ all_day
                      (Google.rstrip before) metadata)
    | None => inl (Google.LibraryError "json.loads")
    end.
Proof.
  intros Hd Hbefore Hs Hds He Hde Hid Hsum.
  unfold Google.from_body. rewrite Hd. cbn [default from_option]. unfold id.
  rewrite split_lines_app, read_description_skip by done.
  rewrite foldr_split_lines, split_lines_app.
  change (Google.split_lines Google.METADATA_HEADER)
    with [Google.METADATA_HEADER].
  cbn [app Google.read_description].
  rewrite String.eqb_refl, join_split_lines.
  destruct (Google.json_loads after) as [metadata|]; [|done].
  rewrite Hs, Hds, He, Hde, Hid, Hsum.
  by rewrite append_nil_l, rstrip_app_space.
Qed.

End google_facts.

Lemma from_body_encode_timed_witness :
  @Google.from_body example_library
    (Google.stored_as "g1" (@Google.encode example_library standup_synced))
  = inr (Event.mk (Some "g1") "Standup" (utc 2024 1 2 9 0) (utc 2024 1 2 9 15)
           false "Daily sync" (tagged "work" "abc")).
Proof.
  apply (@from_body_encode_timed example_library standup_synced "g1").
  - reflexivity.
  - repeat constructor; discriminate.
  - reflexivity.
  - reflexivity.
  - reflexivity.
Defined.

Lemma from_body_encode_all_day_witness :
  @Google.from_body example_library
    (Google.stored_as "g2" (@Google.encode example_library standup_all_day))
  = inr (Event.mk (Some "g2") "Standup"
           (mk_datetime 2024 1 2 0 0 0 0 3600)
           (mk_datetime 2024 1 2 0 0 0 0 3600)
           true "Daily sync" (tagged "work" "abc")).
Proof.
  apply (@from_body_encode_all_day example_library standup_all_day "g2"
           (utc 2024 1 2 0 0) (utc 2024 1 2 0 0)).
  - reflexivity.
  - repeat constructor; discriminate.
  - reflexivity.
  - reflexivity.
  - reflexivity.
Defined.

Lemma from_body_cuts_at_first_header_witness :
  @Google.from_body example_library body_with_header_in_text
  = inl (Google.LibraryError "json.loads").
Proof.
  apply (@from_body_cuts_at_first_header example_library
           body_with_header_in_text "Agenda" "1. budget"
           (Google.mk_date_dict (Some "2024-01-02T09:00:00+00:00") None)
           (Google.mk_date_dict (Some "2024-01-02T09:15:00+00:00") None)
           (utc 2024 1 2 9 0) (utc 2024 1 2 9 15) false false
           "g3" "Standup").
  - reflexivity.
  - repeat constructor; discriminate.
  - reflexivity.
  - reflexivity.
  - reflexivity.
  - reflexivity.
  - reflexivity.
  - reflexivity.
Defined.

(** ** The Google adapter: listings *)

Lemma yields_app {K A : Type} (t1 t2 : list (Google.step K A)) :
  Google.yields (t1 ++ t2) = Google.yields t1 ++ Google.yields t2.
Proof. apply omap_app. Qed.

Lemma requests_app {K A : Type} (t1 t2 : list (Google.step K A)) :
  Google.requests (t1 ++ t2) = Google.requests t1 ++ Google.requests t2.
Proof. apply omap_app. Qed.

Lemma yields_map_Yield {K A : Type} (rs : list A) :
  Google.yields (K:=K) (map Google.Yield rs) = rs.
Proof.
  induction rs as [|r rs IH]; [done|].
  unfold Google.yields in *. cbn. by rewrite IH.
Qed.

Lemma requests_map_Yield {K A : Type} (rs : list A) :
  Google.requests (K:=K) (map Google.Yield rs) = [].
Proof.
  induction rs as [|r rs IH]; [done|].
  unfold Google.requests in *. cbn. by rewrite IH.
Qed.

Lemma elem_of_yields {K A : Type} (trace : list (Google.step K A)) (a : A) :
  a ∈ Google.yields trace ↔ Google.Yield a ∈ trace.
Proof.
  unfold Google.yields. rewrite list_elem_of_omap. split.
  - intros ([kw t|a'] & Hin & [=]). by subst.
  - intros Hin. by exists (Google.Yield a).
Qed.

Lemma iterate_results_while_last {K A : Type} (kwargs : K) (rs : list A)
  (answers : list (option (Google.page A))) :
  Google.iterate_results_while kwargs
    (Some (Google.mk_page (Some rs) None)) answers
  = (map Google.Yield rs, Google.Returned tt).
Proof. by destruct answers. Qed.

Lemma iterate_results_while_pages {K A : Type} (kwargs : K)
  (ps : list (list A * string)) (last : list A)
  (extra : list (option (Google.page A)))
  (r : option (Google.page A)) (answers : list (option (Google.page A))) :
  r :: answers
  = map (λ p, Some (Google.mk_page (Some p.1) (Some p.2))) ps
    ++ Some (Google.mk_page (Some last) None) :: extra →
  ∃ trace,
    Google.iterate_results_while kwargs r answers = (trace, Google.Returned tt)
    ∧ Google.yields trace = concat (map fst ps) ++ last
    ∧ Google.requests trace = map (λ p, (kwargs, Some p.2)) ps.
Proof.
  revert r answers.
  induction ps as [|[rs t] ps IH]; intros r answers Heq; simpl in Heq.
  - injection Heq as -> ->. rewrite iterate_results_while_last.
    eexists. split; [done|].
    by rewrite yields_map_Yield, requests_map_Yield.
  - injection Heq as -> ->.
    destruct (map _ ps ++ _ :: extra) as [|r' answers'] eqn:Hrest.
    { by destruct ps. }
    destruct (IH r' answers' eq_refl) as (trace & Hrun & Hy & Hr).
    cbn [Google.iterate_results_while Google.items Google.nextPageToken].
    rewrite Hrun. eexists. split; [done|].
    rewrite yields_app, requests_app, yields_map_Yield, requests_map_Yield.
    cbn [app concat map fst snd].
    change (Google.yields (Google.Request kwargs (Some t) :: trace))
      with (Google.yields trace).
    change (Google.requests (Google.Request kwargs (Some t) :: trace))
      with ((kwargs, Some t) :: Google.requests trace).
    by rewrite Hy, Hr, app_assoc.
Qed.

(** X15: over a listing of pages of which all but the last carry a
    [nextPageToken], [iterate_results] returns after yielding the items of
    every page in order; it sends one request per page, the first without a
    page token and each further one with the token of the page before, all
    with the same keyword arguments, and asks for nothing after the page
    without a token. *)
Theorem iterate_results_all_pages {K A : Type} (kwargs : K)
  (ps : list (list A * string)) (last : list A)
  (extra : list (option (Google.page A))) :
  ∃ trace,
    Google.iterate_results kwargs
      (map (λ p, Some (Google.mk_page (Some p.1) (Some p.2))) ps
       ++ Some (Google.mk_page (Some last) None) :: extra)
    = (trace, Google.Returned tt)
    ∧ Google.yields trace = concat (map fst ps) ++ last
    ∧ Google.requests trace
      = (kwargs, None) :: map (λ p, (kwargs, Some p.2)) ps.
Proof.
  destruct (map _ ps ++ _ :: extra) as [|r answers] eqn:Hanswers.
  { by destruct ps. }
  destruct (iterate_results_while_pages kwargs ps last extra r answers
              (eq_sym Hanswers)) as (trace & Hrun & Hy & Hr).
  unfold Google.iterate_results. rewrite Hrun.
  eexists. split; [done|]. split; [done|].
  change (Google.requests (Google.Request kwargs None :: trace))
    with ((kwargs, None) :: Google.requests trace).
  by rewrite Hr.
Qed.

Lemma iterate_results_while_yields {K A : Type} (kwargs : K) (a : A)
  (answers : list (option (Google.page A))) (r : option (Google.page A)) :
  Google.Yield a ∈ (Google.iterate_results_while kwargs r answers).1 →
  ∃ p rs, Some p ∈ r :: answers ∧ Google.items p = Some rs ∧ a ∈ rs.
Proof.
  revert r. induction answers as [|r' answers IH]; intros r.
  - destruct r as [[[rs|] [t|]]|]; cbn; intros Hin.
    + apply elem_of_app in Hin as [Hin|Hin].
      * apply list_elem_of_fmap in Hin as (a' & [= <-] & Hin).
        eexists _, rs. split; [left|done].
      * apply list_elem_of_singleton in Hin. done.
    + apply list_elem_of_fmap in Hin as (a' & [= <-] & Hin).
      eexists _, rs. split; [left|done].
    + by apply elem_of_nil in Hin.
    + by apply elem_of_nil in Hin.
    + by apply elem_of_nil in Hin.
  - destruct r as [[[rs|] [t|]]|];
      cbn [Google.iterate_results_while Google.items Google.nextPageToken].
    + destruct (Google.iterate_results_while kwargs r' answers)
        as [trace o] eqn:Hrun.
      cbn [fst]. intros Hin. apply elem_of_app in Hin as [Hin|Hin].
      * apply list_elem_of_fmap in Hin as (a' & [= <-] & Hin).
        eexists _, rs. split; [left|done].
      * apply elem_of_cons in Hin as [[=]|Hin].
        destruct (IH r') as (p & rs' & Hp & Hitems & Ha).
        { by rewrite Hrun. }
        exists p, rs'. split; [by right|done].
    + cbn [fst]. intros Hin.
      apply list_elem_of_fmap in Hin as (a' & [= <-] & Hin).
      eexists _, rs. split; [left|done].
    + cbn [fst]. intros Hin. by apply elem_of_nil in Hin.
    + cbn [fst]. intros Hin. by apply elem_of_nil in Hin.
    + cbn [fst]. intros Hin. by apply elem_of_nil in Hin.
Qed.

Lemma iterate_results_yields {K A : Type} (kwargs : K) (a : A)
  (answers : list (option (Google.page A))) :
  Google.Yield a ∈ (Google.iterate_results kwargs answers).1 →
  ∃ p rs, Some p ∈ answers ∧ Google.items p = Some rs ∧ a ∈ rs.
Proof.
  destruct answers as [|r answers]; cbn [Google.iterate_results].
  - cbn [fst]. intros Hin. apply list_elem_of_singleton in Hin. done.
  - pose proof (iterate_results_while_yields kwargs a answers r) as Hw.
    destruct (Google.iterate_results_while kwargs r answers) as [trace o].
    cbn [fst] in *. intros Hin.
    apply elem_of_cons in Hin as [[=]|Hin]. by apply Hw.
Qed.

Lemma filter_yields_elem {K A : Type} (f : A → bool)
  (trace : list (Google.step K A)) (a : A) :
  Google.Yield a ∈ Google.filter_yields f trace
  ↔ f a = true ∧ Google.Yield a ∈ trace.
Proof.
  unfold Google.filter_yields.
  rewrite !list_elem_of_In, List.filter_In. tauto.
Qed.

Lemma yields_filter_yields {K A : Type} (f : A → bool)
  (trace : list (Google.step K A)) :
  Google.yields (Google.filter_yields f trace)
  = List.filter f (Google.yields trace).
Proof.
  induction trace as [|[kw t|a] trace IH]; [done| |].
  - exact IH.
  - change (Google.filter_yields f (Google.Yield a :: trace))
      with (if f a then Google.Yield a :: Google.filter_yields f trace
            else Google.filter_yields f trace).
    change (Google.yields (Google.Yield a :: trace))
      with (a :: Google.yields trace).
    cbn [List.filter]. destruct (f a); [|done].
    change (Google.yields (Google.Yield a :: Google.filter_yields f trace))
      with (a :: Google.yields (Google.filter_yields f trace)).
    by rewrite IH.
Qed.

Lemma requests_filter_yields {K A : Type} (f : A → bool)
  (trace : list (Google.step K A)) :
  Google.requests (Google.filter_yields f trace) = Google.requests trace.
Proof.
  induction trace as [|[kw t|a] trace IH]; [done| |].
  - change (Google.filter_yields f (Google.Request kw t :: trace))
      with (Google.Request (A:=A) kw t :: Google.filter_yields f trace).
    change (Google.requests (Google.Request kw t :: ?x))
      with ((kw, t) :: Google.requests x).
    by rewrite IH.
  - change (Google.filter_yields f (Google.Yield a :: trace))
      with (if f a then Google.Yield a :: Google.filter_yields f trace
            else Google.filter_yields f trace).
    change (Google.requests (Google.Yield a :: trace))
      with (Google.requests trace).
    destruct (f a); [|done].
    change (Google.requests (Google.Yield a :: Google.filter_yields f trace))
      with (Google.requests (Google.filter_yields f trace)).
    done.
Qed.

Section google_listing.
Context `{Google.Library}.

Lemma events_iterate_results_yields
  (trace : list (Google.step Google.list_kwargs Google.body))
  (o : Google.outcome unit) (ev : Event.t) :
  Google.Yield ev ∈ (Google.events_iterate_results trace o).1 →
  ∃ b, Google.Yield b ∈ trace ∧ Google.accepted b = true
       ∧ Google.from_body b = inr ev.
Proof.
  induction trace as [|[kw t|b] trace IH]; cbn [Google.events_iterate_results].
  - cbn [fst]. intros Hin. by apply elem_of_nil in Hin.
  - destruct (Google.events_iterate_results trace o) as [out o'].
    cbn [fst] in *. intros Hin. apply elem_of_cons in Hin as [[=]|Hin].
    destruct (IH Hin) as (b & ? & ? & ?). exists b. split; [by right|done].
  - destruct (Google.b_status b) as [st|] eqn:Hst;
      [|cbn [fst]; intros Hin; by apply elem_of_nil in Hin].
    destruct (Google.accepted b) eqn:Hacc.
    + destruct (Google.from_body b) as [e|ev'] eqn:Hfrom;
        [cbn [fst]; intros Hin; by apply elem_of_nil in Hin|].
      destruct (Google.events_iterate_results trace o) as [out o'].
      cbn [fst] in *. intros Hin. apply elem_of_cons in Hin as [[= <-]|Hin].
      * exists b. split; [left|done].
      * destruct (IH Hin) as (b' & ? & ? & ?). exists b'.
        split; [by right|done].
    + intros Hin. destruct (IH Hin) as (b' & ? & ? & ?). exists b'.
      split; [by right|done].
Qed.

(** X16: every event that [events] yields passes the filter and was decoded
    from a listed body whose status is "confirmed" or "tenative", the
    spelling the code tests for: a body of status "tentative" is never
    decoded. *)
Theorem events_only_accepted (self_id : string)
  (event_filter : option EventFilter.t)
  (answers : list (option (Google.page Google.body))) (ev : Event.t) :
  Google.Yield ev ∈ (Google.events self_id event_filter answers).1 →
  EventFilter.call (default EventFilter.default event_filter) ev = true
  ∧ ∃ p bs b,
      Some p ∈ answers ∧ Google.items p = Some bs ∧ b ∈ bs
      ∧ Google.from_body b = inr ev
      ∧ (Google.b_status b = Some "confirmed"
         ∨ Google.b_status b = Some "tenative").
Proof.
  unfold Google.events.
  set (kwargs := Google.mk_list_kwargs _ _ _).
  pose proof (λ b, iterate_results_yields kwargs b answers) as Hlisted.
  destruct (Google.iterate_results kwargs answers) as [trace o].
  pose proof (events_iterate_results_yields trace o ev) as Hdecoded.
  destruct (Google.events_iterate_results trace o) as [out o'].
  cbn [fst] in *. intros Hin.
  apply filter_yields_elem in Hin as [Hcall Hin]. split; [done|].
  destruct (Hdecoded Hin) as (b & Hb & Hacc & Hfrom).
  destruct (Hlisted b Hb) as (p & bs & Hp & Hitems & Hbs).
  exists p, bs, b. do 4 (split; [done|]).
  unfold Google.accepted in Hacc. apply bool_decide_eq_true in Hacc.
  apply elem_of_cons in Hacc as [Hacc|Hacc]; [by left|].
  apply list_elem_of_singleton in Hacc. by right.
Qed.

Lemma events_iterate_results_ok
  (trace : list (Google.step Google.list_kwargs Google.body))
  (o : Google.outcome unit) (evs : list Event.t) :
  Forall (λ b, is_Some (Google.b_status b)) (Google.yields trace) →
  Forall2 (λ b ev, Google.from_body b = inr ev)
          (List.filter Google.accepted (Google.yields trace)) evs →
  ∃ out,
    Google.events_iterate_results trace o = (out, o)
    ∧ Google.yields out = evs
    ∧ Google.requests out = Google.requests trace.
Proof.
  revert evs.
  induction trace as [|[kw t|b] trace IH]; intros evs Hst Hdec.
  - cbn in Hdec. apply Forall2_nil_inv_l in Hdec as ->.
    by exists [].
  - destruct (IH evs Hst Hdec) as (out & Hrun & Hy & Hr).
    cbn [Google.events_iterate_results]. rewrite Hrun.
    eexists. split; [done|]. split; [done|].
    change (Google.requests (Google.Request kw t :: ?x))
      with ((kw, t) :: Google.requests x).
    by rewrite Hr.
  - change (Google.yields (Google.Yield b :: trace))
      with (b :: Google.yields trace) in Hst, Hdec.
    apply Forall_cons in Hst as [[st Hb] Hst].
    cbn [Google.events_iterate_results]. rewrite Hb.
    cbn [List.filter] in Hdec.
    destruct (Google.accepted b).
    + apply Forall2_cons_inv_l in Hdec as (ev & evs' & Hfrom & Hdec & ->).
      rewrite Hfrom.
      destruct (IH evs' Hst Hdec) as (out & Hrun & Hy & Hr).
      rewrite Hrun. eexists. split; [done|].
      split; [|done].
      change (Google.yields (Google.Yield ev :: out))
        with (ev :: Google.yields out). by rewrite Hy.
    + destruct (IH evs Hst Hdec) as (out & Hrun & Hy & Hr).
      rewrite Hrun. by exists out.
Qed.

(** X17: over a listing whose bodies all have a status, and whose bodies
    of an accepted status all decode, [events] returns after yielding, in
    the order of the listing, the decoded events that pass the filter; it
    sends one request per page, the first without a page token and each
    further one with the token of the page before. *)
Theorem events_of_listing (self_id : string)
  (event_filter : option EventFilter.t)
  (ps : list (list Google.body * string)) (last : list Google.body)
  (extra : list (option (Google.page Google.body))) (evs : list Event.t) :
  Forall (λ b, is_Some (Google.b_status b)) (concat (map fst ps) ++ last) →
  Forall2 (λ b ev, Google.from_body b = inr ev)
          (List.filter Google.accepted (concat (map fst ps) ++ last)) evs →
  ∃ trace,
    Google.events self_id event_filter
      (map (λ p, Some (Google.mk_page (Some p.1) (Some p.2))) ps
       ++ Some (Google.mk_page (Some last) None) :: extra)
    = (trace, Google.Returned tt)
    ∧ Google.yields trace
      = List.filter
          (EventFilter.call (default EventFilter.default event_filter)) evs
    ∧ map snd (Google.requests trace) = None :: map (λ p, Some p.2) ps.
Proof.
  intros Hst Hdec. unfold Google.events.
  set (kwargs := Google.mk_list_kwargs _ _ _).
  destruct (map _ ps ++ _ :: extra) as [|r answers] eqn:Hanswers.
  { by destruct ps. }
  destruct (iterate_results_while_pages kwargs ps last extra r answers
              (eq_sym Hanswers)) as (trace & Hrun & Hy & Hr).
  unfold Google.iterate_results. rewrite Hrun.
  cbn [Google.events_iterate_results].
  rewrite <- Hy in Hst, Hdec.
  destruct (events_iterate_results_ok trace (Google.Returned tt) evs Hst Hdec)
    as (out & -> & Hy' & Hr').
  eexists. split; [done|].
  rewrite yields_filter_yields, requests_filter_yields.
  change (Google.yields (Google.Request kwargs None :: out))
    with (Google.yields out).
  change (Google.requests (Google.Request kwargs None :: out))
    with ((kwargs, None) :: Google.requests out).
  rewrite Hy', Hr', Hr. split; [done|].
  cbn [map snd]. f_equal. rewrite map_map. done.
Qed.

End google_listing.

Lemma events_only_accepted_witness :
  EventFilter.call (default EventFilter.default None) event_standup = true
  ∧ ∃ p bs b,
      Some p ∈ [Some (Google.mk_page (Some [body_lunch; body_standup]) None)]
      ∧ Google.items p = Some bs ∧ b ∈ bs
      ∧ @Google.from_body example_library b = inr event_standup
      ∧ (Google.b_status b = Some "confirmed"
         ∨ Google.b_status b = Some "tenative").
Proof.
  apply (@events_only_accepted example_library "primary" None
           [Some (Google.mk_page (Some [body_lunch; body_standup]) None)]
           event_standup).
  vm_compute. right. left.
Defined.

Lemma events_of_listing_witness :
  ∃ trace,
    @Google.events example_library "primary" None
      [Some (Google.mk_page (Some [body_lunch]) (Some "page2"));
       Some (Google.mk_page (Some [body_standup]) None)]
    = (trace, Google.Returned tt)
    ∧ Google.yields trace = [event_standup]
    ∧ map snd (Google.requests trace) = [None; Some "page2"].
Proof.
  apply (@events_of_listing example_library "primary" None
           [([body_lunch], "page2")] [body_standup] [] [event_standup]).
  - repeat constructor; eexists; reflexivity.
  - repeat constructor.
Defined.

(** *** The dictionary of calendars *)

Lemma get_calendar_for_keeps
  (trace : list (Google.step unit Google.calendar_metadata))
  (o : Google.outcome unit) (cals : gmap string Google.CalendarAdapter)
  (k : string) (a : Google.CalendarAdapter) :
  cals !! k = Some a →
  (Google.get_calendar_for trace o cals).1.1 !! k = Some a.
Proof.
  revert cals. induction trace as [|[kw t|m] trace IH]; intros cals Hk;
    cbn [Google.get_calendar_for].
  - done.
  - specialize (IH cals Hk).
    destruct (Google.get_calendar_for trace o cals) as [[c sent] o']. done.
  - destruct (Google.m_summary m) as [cal_name|]; [|done].
    destruct (cals !! cal_name) as [a'|] eqn:Hcal; [by apply IH|].
    destruct (Google.CalendarAdapter_init m) as [e|adapter]; [done|].
    apply IH. rewrite lookup_insert_ne; [done|]. congruence.
Qed.

Lemma get_calendar_for_listed (ms : list Google.calendar_metadata)
  (o : Google.outcome unit) (cals : gmap string Google.CalendarAdapter) :
  Forall (λ m, is_Some (Google.m_id m) ∧ is_Some (Google.m_summary m)) ms →
  ∃ c,
    Google.get_calendar_for (map Google.Yield ms) o cals = (c, [], o)
    ∧ (∀ k, is_Some (c !! k)
            ↔ is_Some (cals !! k)
              ∨ ∃ m, m ∈ ms ∧ Google.m_summary m = Some k).
Proof.
  intros Hms. revert cals.
  induction Hms as [|m ms [[i Hi] [n Hn]] _ IH]; intros cals.
  - exists cals. split; [done|]. intros k. split; [by left|].
    intros [?|(m & Hm & _)]; [done|]. by apply elem_of_nil in Hm.
  - cbn [map Google.get_calendar_for]. rewrite Hn.
    destruct (cals !! n) as [a|] eqn:Hcal.
    + destruct (IH cals) as (c & -> & Hc). exists c. split; [done|].
      intros k. rewrite Hc. split.
      * intros [?|(m' & Hm' & ?)]; [by left|].
        right. exists m'. split; [by right|done].
      * intros [?|(m' & Hm' & Hk)]; [by left|].
        apply elem_of_cons in Hm' as [->|Hm'].
        -- left. rewrite Hn in Hk. injection Hk as <-. by rewrite Hcal.
        -- right. by exists m'.
    + unfold Google.CalendarAdapter_init. rewrite Hi.
      destruct (IH (<[n := Google.mk_CalendarAdapter i m]> cals))
        as (c & -> & Hc).
      exists c. split; [done|]. intros k. rewrite Hc. split.
      * intros [Hk|(m' & Hm' & ?)].
        -- destruct (decide (n = k)) as [<-|Hne].
           ++ right. exists m. split; [left|done].
           ++ left. by rewrite lookup_insert_ne in Hk.
        -- right. exists m'. split; [by right|done].
      * intros [Hk|(m' & Hm' & Hk)].
        -- left. destruct (decide (n = k)) as [<-|Hne].
           ++ by rewrite lookup_insert_eq.
           ++ by rewrite lookup_insert_ne.
        -- apply elem_of_cons in Hm' as [->|Hm'].
           ++ left. rewrite Hn in Hk. injection Hk as <-.
              by rewrite lookup_insert_eq.
           ++ right. by exists m'.
Qed.

Lemma get_calendar_for_first (name : string)
  (before : list Google.calendar_metadata) (m : Google.calendar_metadata)
  (after : list Google.calendar_metadata) (i : string)
  (o : Google.outcome unit) (cals : gmap string Google.CalendarAdapter) :
  cals !! name = None →
  Forall (λ m', is_Some (Google.m_id m') ∧ is_Some (Google.m_summary m')
                ∧ Google.m_summary m' ≠ Some name) before →
  Google.m_summary m = Some name →
  Google.m_id m = Some i →
  Forall (λ m', is_Some (Google.m_id m') ∧ is_Some (Google.m_summary m'))
         after →
  ∃ c,
    Google.get_calendar_for (map Google.Yield (before ++ m :: after)) o cals
    = (c, [], o)
    ∧ c !! name = Some (Google.mk_CalendarAdapter i m).
Proof.
  intros Hname Hbefore Hm Hi Hafter. revert cals Hname.
  induction Hbefore as [|m' before ([i' Hi'] & [n' Hn'] & Hne) _ IH];
    intros cals Hname.
  - cbn [app map Google.get_calendar_for]. rewrite Hm, Hname.
    unfold Google.CalendarAdapter_init. rewrite Hi.
    pose proof (get_calendar_for_keeps (map Google.Yield after) o
                  (<[name := Google.mk_CalendarAdapter i m]> cals) name
                  (Google.mk_CalendarAdapter i m)
                  (lookup_insert_eq _ _ _)) as Hkeep.
    destruct (get_calendar_for_listed after o
                (<[name := Google.mk_CalendarAdapter i m]> cals) Hafter)
      as (c & Hrun & _).
    rewrite Hrun in Hkeep |- *. by exists c.
  - cbn [app map Google.get_calendar_for]. rewrite Hn'.
    destruct (cals !! n') as [a|] eqn:Hcal; [by apply IH|].
    unfold Google.CalendarAdapter_init. rewrite Hi'.
    apply IH. rewrite lookup_insert_ne; [done|]. congruence.
Qed.

(** X18: [get_calendar] never removes or replaces an adapter that is in the
    dictionary, whatever name is asked for, whatever the service answers
    and however the call ends. *)
Theorem get_calendar_keeps_cached (name : string)
  (answers : list (option (Google.page Google.calendar_metadata)))
  (cals : gmap string Google.CalendarAdapter)
  (k : string) (a : Google.CalendarAdapter) :
  cals !! k = Some a →
  (Google.get_calendar name answers cals).1.1 !! k = Some a.
Proof.
  intros Hk. unfold Google.get_calendar.
  destruct (cals !! name) as [a'|]; [done|].
  unfold Google.iterate_results.
  destruct answers as [|r answers].
  - done.
  - destruct (Google.iterate_results_while tt r answers) as [trace o].
    pose proof (get_calendar_for_keeps (Google.Request tt None :: trace) o
                  cals k a Hk) as Hkeep.
    destruct (Google.get_calendar_for (Google.Request tt None :: trace) o cals)
      as [[c sent] o']. done.
Qed.

Lemma get_calendar_keeps_cached_witness :
  (Google.get_calendar "work" calendar_list
     {["home" := Google.mk_CalendarAdapter "h0" cal_home]}).1.1 !! "home"
  = Some (Google.mk_CalendarAdapter "h0" cal_home).
Proof.
  apply (get_calendar_keeps_cached "work" calendar_list
           {["home" := Google.mk_CalendarAdapter "h0" cal_home]} "home").
  reflexivity.
Defined.

(** X19: once [get_calendar] has returned an adapter for a name, asking for
    that name again returns the same adapter without a request to the
    service and leaves the dictionary as it is. *)
Theorem get_calendar_again (name : string)
  (answers answers' : list (option (Google.page Google.calendar_metadata)))
  (cals cals' : gmap string Google.CalendarAdapter)
  (sent : list (option string)) (a : Google.CalendarAdapter) :
  Google.get_calendar name answers cals = (cals', sent, Google.Returned a) →
  Google.get_calendar name answers' cals' = (cals', [], Google.Returned a).
Proof.
  intros Hrun.
  assert (Hname : cals' !! name = Some a).
  { unfold Google.get_calendar in Hrun.
    destruct (match cals !! name with
              | Some _ => _
              | None => _
              end) as [[c sent0] o].
    injection Hrun as -> -> Ho.
    destruct o as [[]|e|]; [|done|done].
    destruct (cals' !! name); [|done]. by injection Ho as ->. }
  unfold Google.get_calendar. rewrite Hname. cbn beta iota.
  by rewrite Hname.
Qed.

Lemma get_calendar_again_witness :
  Google.get_calendar "work" [] cached_home_work
  = (cached_home_work, [],
     Google.Returned (Google.mk_CalendarAdapter "w1" cal_work)).
Proof.
  apply (get_calendar_again "work" calendar_list [] ∅ cached_home_work
           [None]).
  reflexivity.
Defined.

(** X20: when the calendar list has several calendars of the name asked
    for, [get_calendar] returns the adapter of the first one listed; the
    later ones are never reachable by that name. *)
Theorem get_calendar_first_listed_wins (name : string)
  (before : list Google.calendar_metadata) (m : Google.calendar_metadata)
  (after : list Google.calendar_metadata) (i : string)
  (extra : list (option (Google.page Google.calendar_metadata)))
  (cals : gmap string Google.CalendarAdapter) :
  cals !! name = None →
  Forall (λ m', is_Some (Google.m_id m') ∧ is_Some (Google.m_summary m')
                ∧ Google.m_summary m' ≠ Some name) before →
  Google.m_summary m = Some name →
  Google.m_id m = Some i →
  Forall (λ m', is_Some (Google.m_id m') ∧ is_Some (Google.m_summary m'))
         after →
  ∃ cals',
    Google.get_calendar name
      (Some (Google.mk_page (Some (before ++ m :: after)) None) :: extra) cals
    = (cals', [None], Google.Returned (Google.mk_CalendarAdapter i m)).
Proof.
  intros Hname Hbefore Hm Hi Hafter.
  unfold Google.get_calendar, Google.iterate_results. rewrite Hname.
  rewrite iterate_results_while_last. cbn [Google.get_calendar_for].
  destruct (get_calendar_for_first name before m after i (Google.Returned tt)
              cals Hname Hbefore Hm Hi Hafter) as (c & -> & Hc).
  exists c. by rewrite Hc.
Qed.

Lemma get_calendar_first_listed_wins_witness :
  ∃ cals',
    Google.get_calendar "work" calendar_list ∅
    = (cals', [None], Google.Returned (Google.mk_CalendarAdapter "w1" cal_work)).
Proof.
  apply (get_calendar_first_listed_wins "work" [cal_home] cal_work
           [cal_work_again] "w1" [] ∅).
  - reflexivity.
  - repeat constructor; try (eexists; reflexivity). discriminate.
  - reflexivity.
  - reflexivity.
  - repeat constructor; eexists; reflexivity.
Defined.

(** X21: asking for a name that is neither in the dictionary nor in the
    calendar list raises [KeyError] for that name, after one request, and
    leaves an adapter in the dictionary for every calendar listed. *)
Theorem get_calendar_unknown_name (name : string)
  (ms : list Google.calendar_metadata)
  (extra : list (option (Google.page Google.calendar_metadata)))
  (cals : gmap string Google.CalendarAdapter) :
  cals !! name = None →
  Forall (λ m, is_Some (Google.m_id m) ∧ is_Some (Google.m_summary m)) ms →
  Forall (λ m, Google.m_summary m ≠ Some name) ms →
  ∃ cals',
    Google.get_calendar name (Some (Google.mk_page (Some ms) None) :: extra)
                        cals
    = (cals', [None], Google.Raised (Google.KeyError name))
    ∧ ∀ m n, m ∈ ms → Google.m_summary m = Some n → is_Some (cals' !! n).
Proof.
  intros Hname Hms Hother.
  unfold Google.get_calendar, Google.iterate_results. rewrite Hname.
  rewrite iterate_results_while_last. cbn [Google.get_calendar_for].
  destruct (get_calendar_for_listed ms (Google.Returned tt) cals Hms)
    as (c & -> & Hc).
  exists c. split.
  - destruct (c !! name) as [a|] eqn:Hcn; [|done].
    exfalso. destruct (proj1 (Hc name)) as [Hin|(m & Hm & Hsum)].
    + by rewrite Hcn.
    + rewrite Hname in Hin. by destruct Hin.
    + rewrite Forall_forall in Hother. by apply (Hother m).
  - intros m n Hm Hn. apply Hc. right. by exists m.
Qed.

Lemma get_calendar_unknown_name_witness :
  ∃ cals',
    Google.get_calendar "school" calendar_list ∅
    = (cals', [None], Google.Raised (Google.KeyError "school"))
    ∧ ∀ m n, m ∈ [cal_home; cal_work; cal_work_again] →
             Google.m_summary m = Some n → is_Some (cals' !! n).
Proof.
  apply (get_calendar_unknown_name "school" [cal_home; cal_work; cal_work_again]
           [] ∅).
  - reflexivity.
  - repeat constructor; eexists; reflexivity.
  - repeat constructor; discriminate.
Defined.
